(** * The upload worker (worker/src/index.ts): model and properties

    A shallow embedding of the request handler of the image-upload worker:
    the in-memory rate limiter, the CORS helpers, the JSON responses, the
    allow-list of MIME types and the [fetch] pipeline; and of the upload
    part of the editor's image panel, which calls the worker.

    Conventions of the model.
    - A JavaScript string is a [string]: a sequence of code units below 256.
    - [Date.now()] and the entry's numbers are integers ([Z]); the counts
      and timestamps involved stay far below 2^53.
    - The process-wide [rateLimitMap] is threaded through every call as a
      [gmap string Entry]; [entry.count++] on the object stored in the map
      is an update of the map at that key.
    - What the platform supplies (the clock, [crypto.randomUUID], the
      outcome of the bucket's [put], the outcome of [request.formData()])
      is an input of the model. *)

From Stdlib Require Import ZArith String Ascii List Bool Lia DecimalString.
From stdpp Require Import base option list strings gmap.
Import ListNotations.

Local Open Scope Z_scope.
Local Open Scope string_scope.

(** ** The rate limiter *)

Record Entry := { count : Z; windowStart : Z }.

Definition RATE_LIMIT_MAX : Z := 20.
Definition RATE_LIMIT_WINDOW_MS : Z := 60000.

(** [isRateLimited ip] with [now] the value of [Date.now()] read at its
    first line; the result is the returned boolean and the map afterwards. *)
Definition isRateLimited (ip : string) (now : Z) (rateLimitMap : gmap string Entry)
  : bool * gmap string Entry :=
  match rateLimitMap !! ip with
  | None =>
      (false, <[ip := {| count := 1; windowStart := now |}]> rateLimitMap)
  | Some entry =>
      if now - windowStart entry >? RATE_LIMIT_WINDOW_MS then
        (false, <[ip := {| count := 1; windowStart := now |}]> rateLimitMap)
      else if count entry >=? RATE_LIMIT_MAX then (true, rateLimitMap)
      else
        (false,
         <[ip := {| count := count entry + 1; windowStart := windowStart entry |}]>
           rateLimitMap)
  end.

(** ** Strings as the handler uses them *)

Definition code (c : ascii) : N := N_of_ascii c.

(** White space and line terminators removed by [String.prototype.trim],
    among the code units below 256. *)
Definition is_js_whitespace (c : ascii) : bool :=
  existsb (N.eqb (code c)) [9; 10; 11; 12; 13; 32; 160]%N.

Fixpoint trimStart (s : string) : string :=
  match s with
  | String c rest => if is_js_whitespace c then trimStart rest else s
  | EmptyString => EmptyString
  end.

Fixpoint trimEnd (s : string) : string :=
  match s with
  | String c rest =>
      match trimEnd rest with
      | EmptyString => if is_js_whitespace c then EmptyString else String c EmptyString
      | rest' => String c rest'
      end
  | EmptyString => EmptyString
  end.

Definition trim (s : string) : string := trimEnd (trimStart s).

(** [s.replace(/\/$/, '')]: the pattern matches one slash at the very end. *)
Fixpoint strip_trailing_slash (s : string) : string :=
  match s with
  | String c EmptyString => if Ascii.eqb c "/" then EmptyString else s
  | String c rest => String c (strip_trailing_slash rest)
  | EmptyString => EmptyString
  end.

Definition to_lower (c : ascii) : ascii :=
  if (65 <=? code c)%N && (code c <=? 90)%N then ascii_of_N (code c + 32) else c.

Fixpoint lowercase (s : string) : string :=
  match s with
  | String c rest => String (to_lower c) (lowercase rest)
  | EmptyString => EmptyString
  end.

(** A number in a template literal: the decimal numeral of an integer. *)
Definition Number_toString (z : Z) : string := NilZero.string_of_int (Z.to_int z).

Definition join (sep : string) (parts : list string) : string := String.concat sep parts.

(** ** JSON.stringify on objects whose properties are strings *)

Definition dquote : ascii := ascii_of_N 34.
Definition backslash : ascii := ascii_of_N 92.

Definition hex_digit (n : N) : ascii :=
  if (n <? 10)%N then ascii_of_N (48 + n) else ascii_of_N (87 + n).

Definition JSON_escape (c : ascii) : string :=
  let n := code c in
  if (n =? 34)%N then String backslash (String dquote EmptyString)
  else if (n =? 92)%N then String backslash (String backslash EmptyString)
  else if (n =? 8)%N then String backslash "b"
  else if (n =? 9)%N then String backslash "t"
  else if (n =? 10)%N then String backslash "n"
  else if (n =? 12)%N then String backslash "f"
  else if (n =? 13)%N then String backslash "r"
  else if (n <? 32)%N then
    String backslash ("u00" +:+ String (hex_digit (n / 16)) (String (hex_digit (n mod 16)) EmptyString))
  else String c EmptyString.

Fixpoint JSON_escape_all (s : string) : string :=
  match s with
  | String c rest => JSON_escape c +:+ JSON_escape_all rest
  | EmptyString => EmptyString
  end.

Definition JSON_quote (s : string) : string :=
  String dquote (JSON_escape_all s +:+ String dquote EmptyString).

Definition JSON_stringify (obj : list (string * string)) : string :=
  "{" +:+ join "," (map (fun kv => JSON_quote kv.1 +:+ ":" +:+ JSON_quote kv.2) obj) +:+ "}".

(** ** Plain objects used as records of strings *)

Fixpoint obj_set (o : list (string * string)) (k v : string) : list (string * string) :=
  match o with
  | [] => [(k, v)]
  | (k', v') :: rest => if String.eqb k' k then (k, v) :: rest else (k', v') :: obj_set rest k v
  end.

(** [{ ...base, ...extra }] *)
Definition spread (base extra : list (string * string)) : list (string * string) :=
  fold_left (fun o kv => obj_set o kv.1 kv.2) extra base.

Fixpoint own_property (o : list (string * string)) (k : string) : option string :=
  match o with
  | [] => None
  | (k', v) :: rest => if String.eqb k' k then Some v else own_property rest k
  end.

Definition Object_keys (o : list (string * string)) : list string := map fst o.

(** What a property read of an object literal can evaluate to: a string of
    its own, or a member inherited from [Object.prototype]. *)
Inductive JsValue :=
  | JsUndefined
  | JsString (s : string)
  | JsNativeFunction (name : string)
  | JsObjectPrototype.

Definition Object_prototype_functions : list string :=
  ["hasOwnProperty"; "isPrototypeOf"; "propertyIsEnumerable"; "toLocaleString";
   "toString"; "valueOf"; "__defineGetter__"; "__defineSetter__";
   "__lookupGetter__"; "__lookupSetter__"].

Definition Object_prototype (k : string) : JsValue :=
  if String.eqb k "constructor" then JsNativeFunction "Object"
  else if String.eqb k "__proto__" then JsObjectPrototype
  else if existsb (String.eqb k) Object_prototype_functions then JsNativeFunction k
  else JsUndefined.

(** [o[k]] for an object literal [o]: own properties first, then the
    prototype. *)
Definition get_property (o : list (string * string)) (k : string) : JsValue :=
  match own_property o k with
  | Some v => JsString v
  | None => Object_prototype k
  end.

Definition ToBoolean (v : JsValue) : bool :=
  match v with
  | JsUndefined => false
  | JsString s => negb (String.eqb s EmptyString)
  | JsNativeFunction _ | JsObjectPrototype => true
  end.

Definition ToString (v : JsValue) : string :=
  match v with
  | JsUndefined => "undefined"
  | JsString s => s
  | JsNativeFunction name => "function " +:+ name +:+ "() { [native code] }"
  | JsObjectPrototype => "[object Object]"
  end.

(** Truthiness of a value of type [string | undefined] or [string | null]. *)
Definition truthy (o : option string) : bool :=
  match o with
  | Some s => negb (String.eqb s EmptyString)
  | None => false
  end.

(** ** Requests, responses and the environment *)

Module File.
Record t := { name : string; type : string; bytes : list Byte.byte }.
End File.

Inductive FormDataEntryValue :=
  | FormString (s : string)
  | FormFile (f : File.t).

(** [formData.get(name)]: the first value under that name, or null. *)
Fixpoint FormData_get (fd : list (string * FormDataEntryValue)) (name : string)
  : option FormDataEntryValue :=
  match fd with
  | [] => None
  | (n, v) :: rest => if String.eqb n name then Some v else FormData_get rest name
  end.

Module Request.
(** [headers] is the request's Headers object, keyed by lower-cased
    name; [formData] is what [await request.formData()] gives, [None]
    when it rejects. *)
Record t := {
  method : string;
  headers : gmap string string;
  formData : option (list (string * FormDataEntryValue))
}.
End Request.

Definition Headers_get (h : gmap string string) (name : string) : option string :=
  h !! lowercase name.

Module Response.
Record t := {
  status : Z;
  headers : list (string * string);
  body : option string
}.
End Response.

Inductive PutOutcome :=
  | PutResolved
  | PutRejected (err : string).

Record R2Bucket := {
  put : string -> list Byte.byte -> string -> PutOutcome
}.

(** [UPLOAD_API_KEY] and [ALLOWED_ORIGIN] may be unset ([None]), which the
    handler tests for; [R2_PUBLIC_URL] is read as the string its
    declaration says it is. *)
Record Env := {
  IMAGE_BUCKET : R2Bucket;
  UPLOAD_API_KEY : option string;
  ALLOWED_ORIGIN : option string;
  R2_PUBLIC_URL : string
}.

(** What the runtime hands to one invocation: [Date.now()] as read inside
    [isRateLimited], [Date.now()] as read when the key is built, and the
    result of [crypto.randomUUID()]. *)
Record Host := {
  now_limiter : Z;
  now_key : Z;
  randomUUID : string
}.

(** ** CORS helpers *)

Definition getAllowedOrigin (env : Env) (requestOrigin : option string) : string :=
  let configured := trim <$> ALLOWED_ORIGIN env in
  match configured with
  | Some origin => if truthy configured then origin else default "*" requestOrigin
  | None => default "*" requestOrigin
  end.

Definition buildCorsHeaders (env : Env) (requestOrigin : option string)
  : list (string * string) :=
  [("Access-Control-Allow-Origin", getAllowedOrigin env requestOrigin);
   ("Access-Control-Allow-Methods", "POST, OPTIONS");
   ("Access-Control-Allow-Headers", "Content-Type, X-Upload-Api-Key");
   ("Access-Control-Max-Age", "86400")].

Definition jsonResponse (body : list (string * string)) (status : Z)
    (extraHeaders : list (string * string)) : Response.t :=
  {| Response.status := status;
     Response.headers := spread [("Content-Type", "application/json")] extraHeaders;
     Response.body := Some (JSON_stringify body) |}.

(** ** Allowed image MIME types and their file extensions *)

Definition ALLOWED_TYPES : list (string * string) :=
  [("image/jpeg", "jpg");
   ("image/png", "png");
   ("image/gif", "gif");
   ("image/webp", "webp");
   ("image/svg+xml", "svg")].

(** ** The main handler *)

Definition fetch (env : Env) (host : Host) (request : Request.t)
    (rateLimitMap : gmap string Entry) : Response.t * gmap string Entry :=
  let requestOrigin := Headers_get (Request.headers request) "Origin" in
  let corsHeaders := buildCorsHeaders env requestOrigin in
  if String.eqb (Request.method request) "OPTIONS" then
    ({| Response.status := 204; Response.headers := corsHeaders; Response.body := None |},
     rateLimitMap)
  else if negb (String.eqb (Request.method request) "POST") then
    (jsonResponse [("error", "Method not allowed")] 405 corsHeaders, rateLimitMap)
  else
    let configuredOrigin := trim <$> ALLOWED_ORIGIN env in
    if truthy configuredOrigin && negb (bool_decide (requestOrigin = configuredOrigin)) then
      (jsonResponse [("error", "Origin not allowed")] 403 corsHeaders, rateLimitMap)
    else
      let apiKey := Headers_get (Request.headers request) "X-Upload-Api-Key" in
      if negb (truthy (UPLOAD_API_KEY env))
         || negb (bool_decide (apiKey = UPLOAD_API_KEY env)) then
        (jsonResponse [("error", "Unauthorized")] 401 corsHeaders, rateLimitMap)
      else
        let ip := default "unknown" (Headers_get (Request.headers request) "CF-Connecting-IP") in
        let '(limited, rateLimitMap') := isRateLimited ip (now_limiter host) rateLimitMap in
        if limited then
          (jsonResponse
             [("error", "Too many requests. Please wait a minute and try again.")]
             429 corsHeaders,
           rateLimitMap')
        else
          match Request.formData request ≫= (fun fd => FormData_get fd "file") with
          | None | Some (FormString _) =>
              (jsonResponse
                 [("error",
                   "Invalid request. Expected multipart/form-data with a "
                   +:+ String dquote ("file" +:+ String dquote " field."))]
                 400 corsHeaders,
               rateLimitMap')
          | Some (FormFile file) =>
              let ext := get_property ALLOWED_TYPES (File.type file) in
              if negb (ToBoolean ext) then
                (jsonResponse
                   [("error",
                     "Unsupported file type " +:+ String dquote (File.type file)
                     +:+ String dquote ". Allowed types: "
                     +:+ join ", " (Object_keys ALLOWED_TYPES))]
                   400 corsHeaders,
                 rateLimitMap')
              else
                let key :=
                  "uploads/" +:+ Number_toString (now_key host) +:+ "-"
                  +:+ randomUUID host +:+ "." +:+ ToString ext in
                match put (IMAGE_BUCKET env) key (File.bytes file) (File.type file) with
                | PutRejected err =>
                    (jsonResponse
                       [("error", "Upload to storage failed. Please try again.")]
                       502 corsHeaders,
                     rateLimitMap')
                | PutResolved =>
                    let publicBaseUrl := strip_trailing_slash (R2_PUBLIC_URL env) in
                    (jsonResponse [("url", publicBaseUrl +:+ "/" +:+ key)] 200 corsHeaders,
                     rateLimitMap')
                end
          end.

(** ** The stages of the handler, named

    The conditions [fetch] tests in line, as predicates on a request; the
    lemmas below show that [fetch] takes its branches on exactly these. *)

Definition requestOrigin (request : Request.t) : option string :=
  Headers_get (Request.headers request) "Origin".

Definition apiKey (request : Request.t) : option string :=
  Headers_get (Request.headers request) "X-Upload-Api-Key".

Definition clientId (request : Request.t) : string :=
  default "unknown" (Headers_get (Request.headers request) "CF-Connecting-IP").

Definition configuredOrigin (env : Env) : option string := trim <$> ALLOWED_ORIGIN env.

Definition passes_origin_check (env : Env) (request : Request.t) : bool :=
  negb (truthy (configuredOrigin env)
        && negb (bool_decide (requestOrigin request = configuredOrigin env))).

Definition passes_key_check (env : Env) (request : Request.t) : bool :=
  negb (negb (truthy (UPLOAD_API_KEY env))
        || negb (bool_decide (apiKey request = UPLOAD_API_KEY env))).

(** The request gets as far as the rate limiter. *)
Definition reaches_limiter (env : Env) (request : Request.t) : bool :=
  String.eqb (Request.method request) "POST"
  && passes_origin_check env request && passes_key_check env request.

(** The value the handler binds to [file], when the parsing stage succeeds. *)
Definition uploaded_file (request : Request.t) : option File.t :=
  match Request.formData request ≫= (fun fd => FormData_get fd "file") with
  | Some (FormFile f) => Some f
  | _ => None
  end.

Definition storage_key (host : Host) (ext : JsValue) : string :=
  "uploads/" +:+ Number_toString (now_key host) +:+ "-"
  +:+ randomUUID host +:+ "." +:+ ToString ext.

Definition invalid_request_message : string :=
  "Invalid request. Expected multipart/form-data with a "
  +:+ String dquote ("file" +:+ String dquote " field.").

Definition unsupported_type_message (type : string) : string :=
  "Unsupported file type " +:+ String dquote type
  +:+ String dquote ". Allowed types: "
  +:+ "image/jpeg, image/png, image/gif, image/webp, image/svg+xml".

Definition Response_header (r : Response.t) (name : string) : option string :=
  own_property (Response.headers r) name.

(** The four CORS headers of a response to [request], with the values
    [buildCorsHeaders] gives them. *)
Definition carries_cors_headers (env : Env) (request : Request.t) (r : Response.t) : Prop :=
  Response_header r "Access-Control-Allow-Origin"
    = Some (getAllowedOrigin env (requestOrigin request))
  /\ Response_header r "Access-Control-Allow-Methods" = Some "POST, OPTIONS"
  /\ Response_header r "Access-Control-Allow-Headers" = Some "Content-Type, X-Upload-Api-Key"
  /\ Response_header r "Access-Control-Max-Age" = Some "86400".

(** The body is the JSON text of an object with the single property [error]. *)
Definition error_body (r : Response.t) : Prop :=
  exists message, Response.body r = Some (JSON_stringify [("error", message)]).

Definition url_body (r : Response.t) : Prop :=
  exists url, Response.body r = Some (JSON_stringify [("url", url)]).

(** The origin check lets the request through: no origin is configured
    (unset, or empty once trimmed), or the Origin header is the configured
    origin. *)
Definition origin_accepted (env : Env) (request : Request.t) : Prop :=
  truthy (configuredOrigin env) = false
  \/ requestOrigin request = configuredOrigin env.

(** The header is absent, or differs from the secret, or no secret is
    configured (unset or empty). *)
Definition key_missing_or_wrong (env : Env) (request : Request.t) : Prop :=
  apiKey request = None
  \/ apiKey request <> UPLOAD_API_KEY env
  \/ UPLOAD_API_KEY env = None
  \/ UPLOAD_API_KEY env = Some EmptyString.

(** [ALLOWED_ORIGIN] is unset, or empty once trimmed. *)
Definition origin_unrestricted (env : Env) : Prop :=
  ALLOWED_ORIGIN env = None
  \/ exists s, ALLOWED_ORIGIN env = Some s /\ trim s = EmptyString.

(** The text between the braces of a JSON object is written with [q] for
    the quotation mark. *)
Definition q : string := String dquote EmptyString.

Definition storage_failed_body : string :=
  "{" +:+ q +:+ "error" +:+ q +:+ ":" +:+ q
  +:+ "Upload to storage failed. Please try again." +:+ q +:+ "}".

Definition invalid_request_body : string :=
  "{" +:+ q +:+ "error" +:+ q +:+ ":" +:+ q
  +:+ "Invalid request. Expected multipart/form-data with a "
  +:+ String backslash q +:+ "file" +:+ String backslash q +:+ " field." +:+ q +:+ "}".

Definition unsupported_pdf_body : string :=
  "{" +:+ q +:+ "error" +:+ q +:+ ":" +:+ q
  +:+ "Unsupported file type " +:+ String backslash q +:+ "application/pdf"
  +:+ String backslash q
  +:+ ". Allowed types: image/jpeg, image/png, image/gif, image/webp, image/svg+xml"
  +:+ q +:+ "}".

(** The shape the specification asks of a body: a form that parsed, with
    exactly one part named [file], that part being a file. *)
Definition spec_exactly_one_file_part
    (formData : option (list (string * FormDataEntryValue))) : bool :=
  match formData with
  | Some fd =>
      match List.filter (fun part => String.eqb part.1 "file") fd with
      | [(_, FormFile _)] => true
      | _ => false
      end
  | None => false
  end.

(** The same request with a form reduced to the one part [file]. *)
Definition with_single_file (request : Request.t) (file : File.t) : Request.t :=
  {| Request.method := Request.method request;
     Request.headers := Request.headers request;
     Request.formData := Some [("file", FormFile file)] |}.

(** The declared type is one of the five MIME types of the allow-list. *)
Definition spec_allowed_type (type : string) : Prop :=
  In type ["image/jpeg"; "image/png"; "image/gif"; "image/webp"; "image/svg+xml"].

(** [hay.includes(needle)] *)
Definition includes (hay needle : string) : bool :=
  match String.index 0 needle hay with
  | Some _ => true
  | None => false
  end.

(** The property names under which [Object.prototype] holds a member. *)
Definition Object_prototype_names : list string :=
  "constructor" :: "__proto__" :: Object_prototype_functions.

(** ** Serving a sequence of requests on one instance *)

Fixpoint serve (env : Env) (trace : list (Host * Request.t)) (m : gmap string Entry)
  : list Response.t * gmap string Entry :=
  match trace with
  | [] => ([], m)
  | (host, request) :: rest =>
      let '(r, m') := fetch env host request m in
      let '(rs, m'') := serve env rest m' in
      (r :: rs, m'')
  end.

(** The invocations of a trace that the limiter counts for [ip]. *)
Definition counted (env : Env) (ip : string) (inv : Host * Request.t) : bool :=
  reaches_limiter env inv.2 && bool_decide (clientId inv.2 = ip).

(** The request at time [now] opens a new window for [ip]. *)
Definition opens_window (m : gmap string Entry) (ip : string) (now : Z) : Prop :=
  match m !! ip with
  | None => True
  | Some entry => now - windowStart entry > RATE_LIMIT_WINDOW_MS
  end.

(** The invocation reads a clock within the window opened at [start]. *)
Definition within_window (start : Z) (inv : Host * Request.t) : Prop :=
  now_limiter inv.1 - start <= RATE_LIMIT_WINDOW_MS.

(** ** Sample configurations and requests *)

Definition bucket_up : R2Bucket := {| put := fun _ _ _ => PutResolved |}.

Definition bucket_down : R2Bucket :=
  {| put := fun _ _ _ => PutRejected "R2 internal error 10001: bucket unavailable" |}.

Definition env_open : Env :=
  {| IMAGE_BUCKET := bucket_up;
     UPLOAD_API_KEY := Some "s3cret";
     ALLOWED_ORIGIN := None;
     R2_PUBLIC_URL := "https://pub-abc123.r2.dev/" |}.

Definition env_restricted : Env :=
  {| IMAGE_BUCKET := bucket_up;
     UPLOAD_API_KEY := Some "s3cret";
     ALLOWED_ORIGIN := Some " https://a.example ";
     R2_PUBLIC_URL := "https://pub-abc123.r2.dev" |}.

Definition env_down : Env :=
  {| IMAGE_BUCKET := bucket_down;
     UPLOAD_API_KEY := Some "s3cret";
     ALLOWED_ORIGIN := None;
     R2_PUBLIC_URL := "https://pub-abc123.r2.dev/" |}.

Definition host0 : Host :=
  {| now_limiter := 1700000000000;
     now_key := 1700000000000;
     randomUUID := "123e4567-e89b-42d3-a456-426614174000" |}.

Definition file_of_type (type : string) : File.t :=
  {| File.name := "photo"; File.type := type; File.bytes := [] |}.

Definition request_with (method : string) (headers : list (string * string))
    (formData : option (list (string * FormDataEntryValue))) : Request.t :=
  {| Request.method := method;
     Request.headers := list_to_map headers;
     Request.formData := formData |}.

(** An authenticated upload of one file of the given declared type. *)
Definition upload_of (type : string) : Request.t :=
  request_with "POST" [("x-upload-api-key", "s3cret")]
    (Some [("file", FormFile (file_of_type type))]).

Definition preflight_request : Request.t :=
  request_with "OPTIONS" [("origin", "https://b.example")] None.

Definition get_request : Request.t := request_with "GET" [] None.

(** A POST from a foreign origin, without the key header. *)
Definition foreign_post : Request.t :=
  request_with "POST" [("origin", "https://b.example")]
    (Some [("file", FormFile (file_of_type "image/png"))]).

(** A POST without the key header and without an Origin header. *)
Definition keyless_post : Request.t :=
  request_with "POST" [("content-type", "multipart/form-data; boundary=x")]
    (Some [("file", FormFile (file_of_type "image/png"))]).

(** A form with two parts named [file], both files. *)
Definition two_files_request : Request.t :=
  request_with "POST" [("x-upload-api-key", "s3cret")]
    (Some [("file", FormFile (file_of_type "image/png"));
           ("file", FormFile (file_of_type "image/gif"))]).

(** A form whose only part named [file] is a text field. *)
Definition text_field_request : Request.t :=
  request_with "POST" [("x-upload-api-key", "s3cret")]
    (Some [("caption", FormString "hello"); ("file", FormString "photo.png")]).

(** An invocation whose limiter clock reads [now]; the key is built three
    milliseconds later. *)
Definition host_at (now : Z) : Host :=
  {| now_limiter := now; now_key := now + 3; randomUUID := randomUUID host0 |}.

Definition upload_from (ip : string) : Request.t :=
  request_with "POST" [("x-upload-api-key", "s3cret"); ("cf-connecting-ip", ip)]
    (Some [("file", FormFile (file_of_type "image/png"))]).

(** A burst from one address: [n] authenticated uploads, one every [gap]
    milliseconds, the first at the clock of [host0]. *)
Definition burst (ip : string) (gap : Z) (n : nat) : list (Host * Request.t) :=
  map (fun i => (host_at (now_limiter host0 + gap * Z.of_nat i), upload_from ip)) (seq 0 n).

(** Twenty uploads from one address in 57 seconds, preceded by a request
    without the key and followed by uploads from another address. *)
Definition busy_minute : list (Host * Request.t) :=
  (host0, keyless_post) :: burst "203.0.113.7" 3000 20 ++ burst "198.51.100.9" 10 5.

(** ** The status of a response, stage by stage *)

(** The key check lets the request through: a non-empty secret is
    configured and the key header carries exactly it. *)
Definition key_accepted (env : Env) (request : Request.t) : Prop :=
  exists secret,
    UPLOAD_API_KEY env = Some secret /\ secret <> EmptyString
    /\ apiKey request = Some secret.

(** The limiter's verdict on the request, were it to reach the limiter. *)
Definition limited (host : Host) (request : Request.t) (m : gmap string Entry) : bool :=
  (isRateLimited (clientId request) (now_limiter host) m).1.

(** The file is stored: parsing gives a file, its type passes the check,
    and the bucket resolves the [put] under the generated key. *)
Definition stored (env : Env) (host : Host) (request : Request.t) : Prop :=
  exists file,
    uploaded_file request = Some file
    /\ ToBoolean (get_property ALLOWED_TYPES (File.type file)) = true
    /\ put (IMAGE_BUCKET env)
           (storage_key host (get_property ALLOWED_TYPES (File.type file)))
           (File.bytes file) (File.type file) = PutResolved.

(** The status [fetch] answers with, as a decision list over its guards;
    [fetch_status] shows it is the status of the response. *)
Definition status_of (env : Env) (host : Host) (request : Request.t)
    (m : gmap string Entry) : Z :=
  if String.eqb (Request.method request) "OPTIONS" then 204
  else if negb (String.eqb (Request.method request) "POST") then 405
  else if negb (passes_origin_check env request) then 403
  else if negb (passes_key_check env request) then 401
  else if limited host request m then 429
  else
    match uploaded_file request with
    | None => 400
    | Some file =>
        let ext := get_property ALLOWED_TYPES (File.type file) in
        if ToBoolean ext then
          match put (IMAGE_BUCKET env) (storage_key host ext)
                    (File.bytes file) (File.type file) with
          | PutResolved => 200
          | PutRejected _ => 502
          end
        else 400
    end.

(** Every entry of the map has a count between 1 and the maximum. *)
Definition counts_bounded (m : gmap string Entry) : Prop :=
  map_Forall (fun _ entry => 1 <= count entry <= RATE_LIMIT_MAX) m.

(** The same request with another name on the uploaded file. *)
Definition rename_file (name : string) (file : File.t) : File.t :=
  {| File.name := name; File.type := File.type file; File.bytes := File.bytes file |}.

Definition all_whitespace (s : string) : Prop :=
  Forall (fun c => is_js_whitespace c = true) (list_ascii_of_string s).

Definition env_blank_origin : Env :=
  {| IMAGE_BUCKET := bucket_up;
     UPLOAD_API_KEY := Some "s3cret";
     ALLOWED_ORIGIN := Some "   ";
     R2_PUBLIC_URL := "https://pub-abc123.r2.dev" |}.

(** An authenticated upload sent from a page of another site. *)
Definition foreign_upload : Request.t :=
  request_with "POST"
    [("x-upload-api-key", "s3cret"); ("origin", "https://b.example")]
    (Some [("file", FormFile (file_of_type "image/png"))]).

(** ** Reading back the JSON text of a response

    The panel reads the worker's answer with [response.json()]. What
    follows is that reading on the texts [JSON_stringify] writes: an object
    whose properties are strings, without white space between the tokens.
    [None] stands for a text outside that fragment. *)

Definition hex_value (c : ascii) : option N :=
  let n := code c in
  if (48 <=? n)%N && (n <=? 57)%N then Some (n - 48)%N
  else if (97 <=? n)%N && (n <=? 102)%N then Some (n - 87)%N
  else if (65 <=? n)%N && (n <=? 70)%N then Some (n - 55)%N
  else None.

(** The character a two-character escape stands for. *)
Definition JSON_unescape (e : ascii) : option ascii :=
  let n := code e in
  if (n =? 34)%N then Some dquote
  else if (n =? 92)%N then Some backslash
  else if (n =? 47)%N then Some "/"%char
  else if (n =? 98)%N then Some (ascii_of_N 8)
  else if (n =? 116)%N then Some (ascii_of_N 9)
  else if (n =? 110)%N then Some (ascii_of_N 10)
  else if (n =? 102)%N then Some (ascii_of_N 12)
  else if (n =? 114)%N then Some (ascii_of_N 13)
  else None.

Definition prepend (c : ascii) (read : option (string * string)) : option (string * string) :=
  match read with
  | Some (text, after) => Some (String c text, after)
  | None => None
  end.

(** Reads the inside of a JSON string up to its closing quotation mark:
    the text it denotes, and what follows the mark. *)
Fixpoint JSON_read_string (s : string) : option (string * string) :=
  match s with
  | EmptyString => None
  | String c rest =>
      if (code c =? 34)%N then Some (EmptyString, rest)
      else if (code c =? 92)%N then
        match rest with
        | String e rest1 =>
            if (code e =? 117)%N then
              match rest1 with
              | String a (String b (String h (String l rest2))) =>
                  match hex_value a, hex_value b, hex_value h, hex_value l with
                  | Some 0%N, Some 0%N, Some x, Some y =>
                      prepend (ascii_of_N (16 * x + y)) (JSON_read_string rest2)
                  | _, _, _, _ => None
                  end
              | _ => None
              end
            else
              match JSON_unescape e with
              | Some d => prepend d (JSON_read_string rest1)
              | None => None
              end
        | EmptyString => None
        end
      else if (code c <? 32)%N then None
      else prepend c (JSON_read_string rest)
  end.

(** Reads [name:value] pairs of strings separated by commas, up to the
    closing brace that ends the text. *)
Fixpoint JSON_read_members (fuel : nat) (s : string) : option (list (string * string)) :=
  match fuel with
  | O => None
  | S fuel' =>
      match s with
      | String c rest =>
          if (code c =? 34)%N then
            match JSON_read_string rest with
            | Some (k, String colon (String c' rest1)) =>
                if (code colon =? 58)%N && (code c' =? 34)%N then
                  match JSON_read_string rest1 with
                  | Some (v, String d rest2) =>
                      if (code d =? 125)%N then
                        match rest2 with
                        | EmptyString => Some [(k, v)]
                        | _ => None
                        end
                      else if (code d =? 44)%N then
                        cons (k, v) <$> JSON_read_members fuel' rest2
                      else None
                  | _ => None
                  end
                else None
            | _ => None
            end
          else None
      | EmptyString => None
      end
  end.

(** The object a text denotes; a name written twice keeps its last value. *)
Definition JSON_parse (s : string) : option (list (string * string)) :=
  match s with
  | String c rest =>
      if (code c =? 123)%N then
        match rest with
        | String d EmptyString =>
            if (code d =? 125)%N then Some [] else None
        | _ => spread [] <$> JSON_read_members (String.length rest) rest
        end
      else None
  | EmptyString => None
  end.

(** The text of one property in [JSON_stringify]. *)
Definition member (kv : string * string) : string :=
  JSON_quote kv.1 +:+ ":" +:+ JSON_quote kv.2.

(** An object of strings as [JSON.stringify] meets it: no name twice. *)
Definition distinct_names (obj : list (string * string)) : Prop := NoDup (map fst obj).

(** ** The image panel of the editor (ImageSidebarPanel)

    The upload part of the panel: [UPLOAD_ENABLED], [handleFileChange] and
    the change handlers of the URL fields. What a run of [handleFileChange]
    does is the list of its effects in order; the outcome of the call to
    the worker is an input. [updateData] is an effect of its own: what it
    does with the schema is outside the panel's file. *)

Inductive UploadState :=
  | StatusIdle
  | StatusUploading
  | StatusError (message : string).

Definition UPLOAD_ENABLED (WORKER_URL API_KEY : option string) : bool :=
  truthy WORKER_URL && truthy API_KEY.

(** A thrown value: an [Error] with its message, or anything else. *)
Inductive Thrown :=
  | ThrownError (message : string)
  | ThrownOther.

Module Result.
(** The value of [response.json()] as the panel reads it. *)
Record t := { url : option string; error : option string }.
End Result.

Inductive JsonOutcome :=
  | JsonRejects (thrown : Thrown)
  | JsonResolves (result : Result.t).

Inductive FetchOutcome :=
  | FetchRejects (thrown : Thrown)
  | FetchResolves (status : Z) (json : JsonOutcome).

(** [response.ok] *)
Definition Response_ok (status : Z) : bool :=
  Z.leb 200 status && Z.leb status 299.

Inductive Effect :=
  | SetUploadState (state : UploadState)
  | PostFile (workerUrl key : string) (file : File.t)
  | UpdateSourceUrl (url : string)
  | ClearFileInput.

Definition caught_message (thrown : Thrown) : string :=
  match thrown with
  | ThrownError message => message
  | ThrownOther => "Upload failed. Please try again."
  end.

(** [file] is [e.target.files?.[0]]; [hasInput] tells whether
    [fileInputRef.current] is set when the [finally] block runs. *)
Definition handleFileChange (WORKER_URL API_KEY : option string)
    (file : option File.t) (hasInput : bool) (outcome : FetchOutcome) : list Effect :=
  match file, WORKER_URL, API_KEY with
  | Some f, Some workerUrl, Some key =>
      if negb (truthy WORKER_URL) || negb (truthy API_KEY) then []
      else
        ([SetUploadState StatusUploading; PostFile workerUrl key f]
         ++ match outcome with
            | FetchRejects thrown => [SetUploadState (StatusError (caught_message thrown))]
            | FetchResolves status (JsonRejects thrown) =>
                [SetUploadState (StatusError (caught_message thrown))]
            | FetchResolves status (JsonResolves result) =>
                if negb (Response_ok status) || negb (truthy (Result.url result)) then
                  [SetUploadState
                     (StatusError
                        (default ("Upload failed (" +:+ Number_toString status +:+ ")")
                                 (Result.error result)))]
                else
                  [UpdateSourceUrl (default EmptyString (Result.url result));
                   SetUploadState StatusIdle]
            end
         ++ (if hasInput then [ClearFileInput] else []))%list
  | _, _, _ => []
  end.

(** The upload state once the effects have run. *)
Definition uploadState_after (initial : UploadState) (effects : list Effect) : UploadState :=
  fold_left (fun state effect =>
               match effect with
               | SetUploadState state' => state'
               | _ => state
               end) effects initial.

(** The value the URL fields store for the text typed:
    [v.trim().length === 0 ? null : v.trim()]. *)
Definition typed_url (v : string) : option string :=
  if Nat.eqb (String.length (trim v)) 0 then None else Some (trim v).

(** What [response.json()] gives on a response of the worker, when its
    body is a text [JSON_parse] reads. *)
Definition response_json (r : Response.t) : option Result.t :=
  obj ← Response.body r ≫= JSON_parse;
  Some {| Result.url := own_property obj "url"; Result.error := own_property obj "error" |}.

(** The worker's answer delivers the URL [u]: the call resolved with a
    status from 200 to 299 and a body whose [url] is the non-empty [u]. *)
Definition delivers (outcome : FetchOutcome) (u : string) : Prop :=
  exists status result,
    outcome = FetchResolves status (JsonResolves result)
    /\ 200 <= status <= 299
    /\ Result.url result = Some u /\ u <> EmptyString.

(** ** Properties of the rate limiter *)

Section RateLimiter.
Variable ip : string.
Variable now : Z.
Variable m : gmap string Entry.

Lemma isRateLimited_fresh :
  m !! ip = None ->
  isRateLimited ip now m = (false, <[ip := {| count := 1; windowStart := now |}]> m).
Proof. intros H. unfold isRateLimited. now rewrite H. Qed.

Lemma isRateLimited_expired entry :
  m !! ip = Some entry ->
  now - windowStart entry > RATE_LIMIT_WINDOW_MS ->
  isRateLimited ip now m = (false, <[ip := {| count := 1; windowStart := now |}]> m).
Proof.
  intros H Hgt. unfold isRateLimited. rewrite H.
  destruct (Z.gtb_spec (now - windowStart entry) RATE_LIMIT_WINDOW_MS); [done | lia].
Qed.

Lemma isRateLimited_under entry :
  m !! ip = Some entry ->
  now - windowStart entry <= RATE_LIMIT_WINDOW_MS ->
  count entry < RATE_LIMIT_MAX ->
  isRateLimited ip now m =
    (false, <[ip := {| count := count entry + 1; windowStart := windowStart entry |}]> m).
Proof.
  intros H Hle Hlt. unfold isRateLimited. rewrite H.
  destruct (Z.gtb_spec (now - windowStart entry) RATE_LIMIT_WINDOW_MS); [lia |].
  destruct (Z.geb_spec (count entry) RATE_LIMIT_MAX); [lia | done].
Qed.

Lemma isRateLimited_over entry :
  m !! ip = Some entry ->
  now - windowStart entry <= RATE_LIMIT_WINDOW_MS ->
  RATE_LIMIT_MAX <= count entry ->
  isRateLimited ip now m = (true, m).
Proof.
  intros H Hle Hge. unfold isRateLimited. rewrite H.
  destruct (Z.gtb_spec (now - windowStart entry) RATE_LIMIT_WINDOW_MS); [lia |].
  destruct (Z.geb_spec (count entry) RATE_LIMIT_MAX); [done | lia].
Qed.

(** A call for one identifier leaves every other identifier's entry alone. *)
Lemma isRateLimited_other ip' :
  ip' <> ip -> (isRateLimited ip now m).2 !! ip' = m !! ip'.
Proof.
  intros Hne. unfold isRateLimited.
  destruct (m !! ip) as [entry|]; simpl.
  - destruct (_ >? _); simpl; [by rewrite lookup_insert_ne |].
    destruct (_ >=? _); simpl; [done | by rewrite lookup_insert_ne].
  - by rewrite lookup_insert_ne.
Qed.
End RateLimiter.

(** ** The branches of [fetch] *)

Section Stages.
Variable env : Env.
Variable host : Host.
Variable request : Request.t.
Variable m : gmap string Entry.

Let cors := buildCorsHeaders env (requestOrigin request).

Lemma fetch_preflight :
  Request.method request = "OPTIONS" ->
  fetch env host request m =
    ({| Response.status := 204; Response.headers := cors; Response.body := None |}, m).
Proof. intros H. unfold fetch. now rewrite H. Qed.

Lemma fetch_method_not_allowed :
  Request.method request <> "OPTIONS" ->
  Request.method request <> "POST" ->
  fetch env host request m =
    (jsonResponse [("error", "Method not allowed")] 405 cors, m).
Proof.
  intros H1 H2. unfold fetch.
  apply String.eqb_neq in H1, H2. now rewrite H1, H2.
Qed.

Lemma fetch_origin_not_allowed :
  Request.method request = "POST" ->
  passes_origin_check env request = false ->
  fetch env host request m =
    (jsonResponse [("error", "Origin not allowed")] 403 cors, m).
Proof.
  intros H1 H2. unfold fetch. rewrite H1. cbn [String.eqb Ascii.eqb Bool.eqb negb].
  unfold passes_origin_check, configuredOrigin, requestOrigin in H2.
  apply negb_false_iff in H2. now rewrite H2.
Qed.

Lemma fetch_unauthorized :
  Request.method request = "POST" ->
  passes_origin_check env request = true ->
  passes_key_check env request = false ->
  fetch env host request m =
    (jsonResponse [("error", "Unauthorized")] 401 cors, m).
Proof.
  intros H1 H2 H3. unfold fetch. rewrite H1. cbn [String.eqb Ascii.eqb Bool.eqb negb].
  unfold passes_origin_check, configuredOrigin, requestOrigin in H2.
  apply negb_true_iff in H2. rewrite H2.
  unfold passes_key_check, apiKey in H3.
  apply negb_false_iff in H3. now rewrite H3.
Qed.

(** From the limiter on: the request has passed the three guards. *)
Lemma fetch_reaches_limiter :
  reaches_limiter env request = true ->
  fetch env host request m =
    let '(limited, m') := isRateLimited (clientId request) (now_limiter host) m in
    if limited then
      (jsonResponse
         [("error", "Too many requests. Please wait a minute and try again.")]
         429 cors, m')
    else
      match uploaded_file request with
      | None => (jsonResponse [("error", invalid_request_message)] 400 cors, m')
      | Some file =>
          let ext := get_property ALLOWED_TYPES (File.type file) in
          if ToBoolean ext then
            match put (IMAGE_BUCKET env) (storage_key host ext)
                      (File.bytes file) (File.type file) with
            | PutRejected _ =>
                (jsonResponse
                   [("error", "Upload to storage failed. Please try again.")]
                   502 cors, m')
            | PutResolved =>
                (jsonResponse
                   [("url", strip_trailing_slash (R2_PUBLIC_URL env) +:+ "/"
                            +:+ storage_key host ext)]
                   200 cors, m')
            end
          else
            (jsonResponse [("error", unsupported_type_message (File.type file))]
               400 cors, m')
      end.
Proof.
  intros H. unfold reaches_limiter in H.
  apply andb_true_iff in H as [H H3]. apply andb_true_iff in H as [H1 H2].
  apply String.eqb_eq in H1.
  unfold fetch. rewrite H1. cbn [String.eqb Ascii.eqb Bool.eqb negb].
  unfold passes_origin_check, configuredOrigin, requestOrigin in H2.
  apply negb_true_iff in H2. rewrite H2.
  unfold passes_key_check, apiKey in H3.
  apply negb_true_iff in H3. rewrite H3.
  fold (clientId request).
  destruct (isRateLimited (clientId request) (now_limiter host) m) as [limited m'].
  destruct limited; [reflexivity |].
  unfold uploaded_file.
  destruct (Request.formData request ≫= _) as [[s | file] |]; try reflexivity.
  destruct (ToBoolean (get_property ALLOWED_TYPES (File.type file))); reflexivity.
Qed.

(** A request stopped before the limiter leaves the map as it was. *)
Lemma fetch_stopped_early :
  reaches_limiter env request = false ->
  (fetch env host request m).2 = m
  /\ In (Response.status (fetch env host request m).1) [204; 405; 403; 401].
Proof.
  intros H. unfold reaches_limiter in H.
  destruct (decide (Request.method request = "OPTIONS")) as [Ho | Ho].
  { rewrite fetch_preflight by done. simpl. auto. }
  destruct (decide (Request.method request = "POST")) as [Hp | Hp].
  2:{ rewrite fetch_method_not_allowed by done. simpl. auto. }
  apply String.eqb_eq in Hp as Hp'. rewrite Hp' in H. simpl in H.
  destruct (passes_origin_check env request) eqn:Horigin.
  - simpl in H. rewrite fetch_unauthorized by done. simpl. auto 6.
  - rewrite fetch_origin_not_allowed by done. simpl. auto 6.
Qed.
End Stages.

(** ** Headers and bodies of the responses *)

Lemma cors_headers_of_jsonResponse env request body status :
  carries_cors_headers env request
    (jsonResponse body status (buildCorsHeaders env (requestOrigin request))).
Proof. repeat split. Qed.

Lemma json_content_type body status env o :
  Response_header (jsonResponse body status (buildCorsHeaders env o)) "Content-Type"
  = Some "application/json".
Proof. reflexivity. Qed.

(** Every response: its CORS headers, and its status with the kind of body
    that goes with it. *)
Lemma fetch_response_shape env host request m :
  let r := (fetch env host request m).1 in
  carries_cors_headers env request r
  /\ (Response.status r = 204 /\ Response.body r = None
      \/ Response.status r = 200 /\ url_body r
      \/ In (Response.status r) [400; 401; 403; 405; 429; 502] /\ error_body r).
Proof.
  destruct (reaches_limiter env request) eqn:Hreach.
  - rewrite fetch_reaches_limiter by done.
    destruct (isRateLimited _ _ _) as [[] m'].
    { split; [apply cors_headers_of_jsonResponse |].
      right; right. split; [simpl; auto 8 | eexists; reflexivity]. }
    destruct (uploaded_file request) as [file |].
    2:{ split; [apply cors_headers_of_jsonResponse |].
        right; right. split; [simpl; auto 8 | eexists; reflexivity]. }
    cbv zeta. destruct (ToBoolean _).
    2:{ split; [apply cors_headers_of_jsonResponse |].
        right; right. split; [simpl; auto 8 | eexists; reflexivity]. }
    destruct (put _ _ _ _).
    + split; [apply cors_headers_of_jsonResponse |].
      right; left. split; [reflexivity | eexists; reflexivity].
    + split; [apply cors_headers_of_jsonResponse |].
      right; right. split; [simpl; auto 8 | eexists; reflexivity].
  - unfold reaches_limiter in Hreach.
    destruct (decide (Request.method request = "OPTIONS")) as [Ho | Ho].
    { rewrite fetch_preflight by done. split; [repeat split | left; done]. }
    destruct (decide (Request.method request = "POST")) as [Hp | Hp].
    2:{ rewrite fetch_method_not_allowed by done.
        split; [apply cors_headers_of_jsonResponse |].
        right; right. split; [simpl; auto 8 | eexists; reflexivity]. }
    apply String.eqb_eq in Hp as Hp'. rewrite Hp' in Hreach. simpl in Hreach.
    destruct (passes_origin_check env request) eqn:Horigin.
    + simpl in Hreach. rewrite fetch_unauthorized by done.
      split; [apply cors_headers_of_jsonResponse |].
      right; right. split; [simpl; auto 8 | eexists; reflexivity].
    + rewrite fetch_origin_not_allowed by done.
      split; [apply cors_headers_of_jsonResponse |].
      right; right. split; [simpl; auto 8 | eexists; reflexivity].
Qed.

Lemma fetch_allow_origin env host request m :
  Response_header (fetch env host request m).1 "Access-Control-Allow-Origin"
  = Some (getAllowedOrigin env (requestOrigin request)).
Proof. apply (fetch_response_shape env host request m). Qed.

Lemma getAllowedOrigin_unrestricted env o :
  truthy (configuredOrigin env) = false ->
  getAllowedOrigin env o = default "*" o.
Proof.
  unfold getAllowedOrigin, configuredOrigin. intros H.
  destruct (trim <$> ALLOWED_ORIGIN env); [now rewrite H | done].
Qed.

Lemma getAllowedOrigin_restricted env o origin :
  configuredOrigin env = Some origin ->
  origin <> EmptyString ->
  getAllowedOrigin env o = origin.
Proof.
  unfold getAllowedOrigin, configuredOrigin. intros -> Hne.
  simpl. apply String.eqb_neq in Hne. now rewrite Hne.
Qed.

(** C9: every response of the handler, whatever its status, carries the
    four CORS headers; its status is 204 with no body, 200 with a JSON
    object holding [url], or one of 400, 401, 403, 405, 429, 502 with a
    JSON object of the shape [{ error: message }]. *)
Theorem every_response_has_cors_and_json_errors env host request m :
  let r := (fetch env host request m).1 in
  carries_cors_headers env request r
  /\ In (Response.status r) [204; 200; 400; 401; 403; 405; 429; 502]
  /\ (Response.status r <> 204 -> Response.status r <> 200 -> error_body r).
Proof.
  intros r. destruct (fetch_response_shape env host request m) as [Hcors Hkind].
  fold r in Hcors, Hkind. split; [exact Hcors |].
  destruct Hkind as [[Hs Hb] | [[Hs Hb] | [Hs Hb]]].
  - rewrite Hs. split; [simpl; auto | done].
  - rewrite Hs. split; [simpl; auto | done].
  - split; [| intros _ _; exact Hb].
    simpl in Hs |- *. intuition.
Qed.

(** ** The guards, in the words of their conditions *)

Lemma origin_accepted_check env request :
  origin_accepted env request <-> passes_origin_check env request = true.
Proof.
  unfold origin_accepted, passes_origin_check.
  rewrite negb_true_iff, andb_false_iff, negb_false_iff, bool_decide_eq_true.
  reflexivity.
Qed.

Lemma key_missing_or_wrong_check env request :
  key_missing_or_wrong env request -> passes_key_check env request = false.
Proof.
  unfold key_missing_or_wrong, passes_key_check.
  rewrite negb_false_iff, orb_true_iff, !negb_true_iff, bool_decide_eq_false.
  intros [H | [H | [H | H]]].
  - destruct (UPLOAD_API_KEY env) as [k|]; [right; congruence | left; done].
  - by right.
  - left. now rewrite H.
  - left. now rewrite H.
Qed.

Lemma origin_unrestricted_falsy env :
  origin_unrestricted env -> truthy (configuredOrigin env) = false.
Proof.
  unfold origin_unrestricted, configuredOrigin.
  intros [-> | (s & -> & Hs)]; [done |]. simpl. now rewrite Hs.
Qed.

(** C8: with [ALLOWED_ORIGIN] unset, or empty once trimmed, the
    Access-Control-Allow-Origin header of the response is the request's
    Origin header as received, and the star when the request has none. *)
Theorem unrestricted_cors_echoes_origin env host request m :
  origin_unrestricted env ->
  Response_header (fetch env host request m).1 "Access-Control-Allow-Origin"
  = Some (match Headers_get (Request.headers request) "Origin" with
          | Some origin => origin
          | None => "*"
          end).
Proof.
  intros H. rewrite fetch_allow_origin.
  rewrite getAllowedOrigin_unrestricted by now apply origin_unrestricted_falsy.
  unfold requestOrigin. now destruct (Headers_get _ _).
Qed.

Lemma unrestricted_cors_echoes_origin_witness :
  Response_header (fetch env_open host0 preflight_request ∅).1 "Access-Control-Allow-Origin"
  = Some "https://b.example".
Proof.
  apply (unrestricted_cors_echoes_origin env_open host0 preflight_request ∅).
  left. reflexivity.
Defined.

(** C10: when [ALLOWED_ORIGIN] trims to a non-empty string, the
    Access-Control-Allow-Origin header of every response is that trimmed
    value, whatever Origin the request carries; this covers the 204
    preflight response and the 403 response to a foreign origin. *)
Theorem restricted_cors_is_configured_origin env host request m s :
  ALLOWED_ORIGIN env = Some s ->
  trim s <> EmptyString ->
  Response_header (fetch env host request m).1 "Access-Control-Allow-Origin"
  = Some (trim s).
Proof.
  intros Hs Hne. rewrite fetch_allow_origin.
  f_equal. apply getAllowedOrigin_restricted; [| done].
  unfold configuredOrigin. now rewrite Hs.
Qed.

Lemma restricted_cors_is_configured_origin_witness :
  Response.status (fetch env_restricted host0 foreign_post ∅).1 = 403
  /\ Response_header (fetch env_restricted host0 foreign_post ∅).1
       "Access-Control-Allow-Origin" = Some "https://a.example".
Proof.
  split; [reflexivity |].
  apply (restricted_cors_is_configured_origin env_restricted host0 foreign_post ∅
           " https://a.example ").
  - reflexivity.
  - discriminate.
Defined.

Lemma restricted_preflight_example :
  Response.status (fetch env_restricted host0 preflight_request ∅).1 = 204
  /\ Response_header (fetch env_restricted host0 preflight_request ∅).1
       "Access-Control-Allow-Origin" = Some "https://a.example".
Proof. split; reflexivity. Qed.

(** ** Authentication *)

(** C1, as stated, fails: a request without the key header is answered
    204 when it is a preflight, 405 when its method is neither OPTIONS nor
    POST, and 403 when it is a POST from an origin other than the
    configured one. *)
Lemma missing_key_not_always_401 :
  (apiKey preflight_request = None
   /\ Response.status (fetch env_open host0 preflight_request ∅).1 = 204)
  /\ (apiKey get_request = None
      /\ Response.status (fetch env_open host0 get_request ∅).1 = 405)
  /\ (apiKey foreign_post = None
      /\ Response.status (fetch env_restricted host0 foreign_post ∅).1 = 403).
Proof. repeat split. Qed.

(** C1, amended: a POST request that passes the origin check and whose key
    header is missing or differs from the configured secret, or for which
    no secret is configured, is answered 401 with the error Unauthorized,
    whatever its other headers and its body; the rate-limit map is left
    untouched. *)
Theorem unauthorized_after_origin_check env host request m :
  Request.method request = "POST" ->
  origin_accepted env request ->
  key_missing_or_wrong env request ->
  Response.status (fetch env host request m).1 = 401
  /\ Response.body (fetch env host request m).1
     = Some (JSON_stringify [("error", "Unauthorized")])
  /\ (fetch env host request m).2 = m.
Proof.
  intros Hpost Horigin Hkey.
  rewrite fetch_unauthorized;
    [done | done | by apply origin_accepted_check | by apply key_missing_or_wrong_check].
Qed.

Lemma unauthorized_after_origin_check_witness :
  Response.status (fetch env_open host0 keyless_post ∅).1 = 401
  /\ Response.body (fetch env_open host0 keyless_post ∅).1
     = Some (JSON_stringify [("error", "Unauthorized")])
  /\ (fetch env_open host0 keyless_post ∅).2 = ∅.
Proof.
  apply (unauthorized_after_origin_check env_open host0 keyless_post ∅).
  - reflexivity.
  - left. reflexivity.
  - left. reflexivity.
Defined.

(** ** The window of the rate limiter *)

(** C3: for an identifier that has an entry, a request arriving strictly
    more than 60000 ms after the entry's window start resets the entry to
    count 1 and window start now, and is not limited; a request within
    the window and under the limit of 20 increments the count, keeps the
    window start, and is not limited. *)
Theorem window_reset_or_increment ip now (m : gmap string Entry) entry :
  m !! ip = Some entry ->
  (now - windowStart entry > 60000 ->
   isRateLimited ip now m
   = (false, <[ip := {| count := 1; windowStart := now |}]> m))
  /\ (now - windowStart entry <= 60000 ->
      count entry < 20 ->
      isRateLimited ip now m
      = (false,
         <[ip := {| count := count entry + 1; windowStart := windowStart entry |}]> m)).
Proof.
  intros H. split.
  - intros Hgt. apply (isRateLimited_expired ip now m entry H). unfold RATE_LIMIT_WINDOW_MS. lia.
  - intros Hle Hlt. apply (isRateLimited_under ip now m entry H).
    + unfold RATE_LIMIT_WINDOW_MS. lia.
    + unfold RATE_LIMIT_MAX. lia.
Qed.

Lemma window_reset_or_increment_witness :
  isRateLimited "203.0.113.7" 1700000060001
    {[ "203.0.113.7" := {| count := 20; windowStart := 1700000000000 |} ]}
  = (false,
     <[ "203.0.113.7" := {| count := 1; windowStart := 1700000060001 |} ]>
       {[ "203.0.113.7" := {| count := 20; windowStart := 1700000000000 |} ]}).
Proof.
  apply (window_reset_or_increment "203.0.113.7" 1700000060001
           {[ "203.0.113.7" := {| count := 20; windowStart := 1700000000000 |} ]}
           {| count := 20; windowStart := 1700000000000 |}).
  - reflexivity.
  - simpl. lia.
Defined.

(** At exactly 60000 ms the window is still open. *)
Lemma window_boundary_example :
  (isRateLimited "203.0.113.7" 1700000060000
     {[ "203.0.113.7" := {| count := 20; windowStart := 1700000000000 |} ]}).1 = true.
Proof. reflexivity. Qed.

(** ** Parsing, type validation and storage *)

Section PastLimiter.
Variable env : Env.
Variable host : Host.
Variable request : Request.t.
Variable m : gmap string Entry.

Hypothesis Hreach : reaches_limiter env request = true.
Hypothesis Hfree : (isRateLimited (clientId request) (now_limiter host) m).1 = false.

Let cors := buildCorsHeaders env (requestOrigin request).
Let m' := (isRateLimited (clientId request) (now_limiter host) m).2.

Lemma fetch_invalid_form :
  uploaded_file request = None ->
  fetch env host request m
  = (jsonResponse [("error", invalid_request_message)] 400 cors, m').
Proof using Hreach Hfree.
  intros Hfile. rewrite fetch_reaches_limiter by done.
  subst m'. destruct (isRateLimited _ _ _) as [limited m1].
  simpl in Hfree. subst limited. now rewrite Hfile.
Qed.

Lemma fetch_unsupported_type file :
  uploaded_file request = Some file ->
  ToBoolean (get_property ALLOWED_TYPES (File.type file)) = false ->
  fetch env host request m
  = (jsonResponse [("error", unsupported_type_message (File.type file))] 400 cors, m').
Proof using Hreach Hfree.
  intros Hfile Hext. rewrite fetch_reaches_limiter by done.
  subst m'. destruct (isRateLimited _ _ _) as [limited m1].
  simpl in Hfree. subst limited. rewrite Hfile. cbv zeta. now rewrite Hext.
Qed.

Lemma fetch_storage_failed file err :
  uploaded_file request = Some file ->
  ToBoolean (get_property ALLOWED_TYPES (File.type file)) = true ->
  put (IMAGE_BUCKET env)
      (storage_key host (get_property ALLOWED_TYPES (File.type file)))
      (File.bytes file) (File.type file) = PutRejected err ->
  fetch env host request m
  = (jsonResponse [("error", "Upload to storage failed. Please try again.")] 502 cors,
     m').
Proof using Hreach Hfree.
  intros Hfile Hext Hput. rewrite fetch_reaches_limiter by done.
  subst m'. destruct (isRateLimited _ _ _) as [limited m1].
  simpl in Hfree. subst limited. rewrite Hfile. cbv zeta. now rewrite Hext, Hput.
Qed.

Lemma fetch_stored file :
  uploaded_file request = Some file ->
  ToBoolean (get_property ALLOWED_TYPES (File.type file)) = true ->
  put (IMAGE_BUCKET env)
      (storage_key host (get_property ALLOWED_TYPES (File.type file)))
      (File.bytes file) (File.type file) = PutResolved ->
  fetch env host request m
  = (jsonResponse
       [("url", strip_trailing_slash (R2_PUBLIC_URL env) +:+ "/"
                +:+ storage_key host (get_property ALLOWED_TYPES (File.type file)))]
       200 cors,
     m').
Proof using Hreach Hfree.
  intros Hfile Hext Hput. rewrite fetch_reaches_limiter by done.
  subst m'. destruct (isRateLimited _ _ _) as [limited m1].
  simpl in Hfree. subst limited. rewrite Hfile. cbv zeta. now rewrite Hext, Hput.
Qed.

(** Past the limiter the status is 200, 400 or 502. *)
Lemma fetch_past_limiter_status :
  In (Response.status (fetch env host request m).1) [200; 400; 502].
Proof using Hreach Hfree.
  destruct (uploaded_file request) as [file |] eqn:Hfile.
  2:{ rewrite fetch_invalid_form by done. simpl. auto. }
  destruct (ToBoolean (get_property ALLOWED_TYPES (File.type file))) eqn:Hext.
  2:{ rewrite (fetch_unsupported_type file) by done. simpl. auto. }
  destruct (put (IMAGE_BUCKET env)
              (storage_key host (get_property ALLOWED_TYPES (File.type file)))
              (File.bytes file) (File.type file)) as [| err] eqn:Hput.
  - rewrite (fetch_stored file) by done. simpl. auto.
  - rewrite (fetch_storage_failed file err) by done. simpl. auto.
Qed.
End PastLimiter.

Lemma invalid_request_body_text :
  JSON_stringify [("error", invalid_request_message)] = invalid_request_body.
Proof. reflexivity. Qed.

Lemma storage_failed_body_text :
  JSON_stringify [("error", "Upload to storage failed. Please try again.")]
  = storage_failed_body.
Proof. reflexivity. Qed.

Lemma uploaded_file_None request :
  uploaded_file request = None <->
  Request.formData request = None
  \/ (exists fd, Request.formData request = Some fd /\ FormData_get fd "file" = None)
  \/ (exists fd s, Request.formData request = Some fd
                   /\ FormData_get fd "file" = Some (FormString s)).
Proof.
  unfold uploaded_file. destruct (Request.formData request) as [fd |]; simpl.
  - destruct (FormData_get fd "file") as [[s | f] |] eqn:Hget; split; try done.
    + intros _. right; right. by exists fd, s.
    + intros [? | [(fd' & Hfd & Hn) | (fd' & s & Hfd & Hs)]]; [done | |];
        simplify_eq.
    + intros _. right; left. by exists fd.
  - split; [by left | done].
Qed.

Lemma uploaded_file_Some request file :
  uploaded_file request = Some file <->
  exists fd, Request.formData request = Some fd
             /\ FormData_get fd "file" = Some (FormFile file).
Proof.
  unfold uploaded_file. destruct (Request.formData request) as [fd |]; simpl.
  - destruct (FormData_get fd "file") as [[s | f] |] eqn:Hget; split;
      try done; try (intros (fd' & ? & ?); simplify_eq; done).
    intros ?; simplify_eq. by exists fd.
  - split; [done | intros (fd' & ? & ?); done].
Qed.

(** C6, as stated, fails: a form with two parts named [file] is not of the
    shape the claim asks for, yet the request is served and answered 200. *)
Lemma two_file_parts_are_accepted :
  reaches_limiter env_open two_files_request = true
  /\ spec_exactly_one_file_part (Request.formData two_files_request) = false
  /\ Response.status (fetch env_open host0 two_files_request ∅).1 = 200.
Proof. repeat split. Qed.

Lemma proceeding_body_differs env host request m file :
  reaches_limiter env request = true ->
  (isRateLimited (clientId request) (now_limiter host) m).1 = false ->
  uploaded_file request = Some file ->
  Response.body (fetch env host request m).1 <> Some invalid_request_body.
Proof.
  intros Hreach Hfree Hfile.
  destruct (ToBoolean (get_property ALLOWED_TYPES (File.type file))) eqn:Hext.
  2:{ rewrite (fetch_unsupported_type env host request m Hreach Hfree file) by done.
      discriminate. }
  destruct (put (IMAGE_BUCKET env)
              (storage_key host (get_property ALLOWED_TYPES (File.type file)))
              (File.bytes file) (File.type file)) as [| err] eqn:Hput.
  - rewrite (fetch_stored env host request m Hreach Hfree file) by done. discriminate.
  - rewrite (fetch_storage_failed env host request m Hreach Hfree file err) by done.
    discriminate.
Qed.

(** C6, amended: for a POST request that reaches the parsing stage, the
    first part named [file] decides. When the body does not parse as a
    form, or has no part named [file], or its first such part is a text
    field, the answer is 400 with the fixed message. When its first such
    part is a file, the request is not answered with that message and is
    handled exactly as if the form held that part alone: further parts,
    named [file] or not, are ignored. *)
Theorem first_file_part_decides env host request m :
  reaches_limiter env request = true ->
  (isRateLimited (clientId request) (now_limiter host) m).1 = false ->
  ((Request.formData request = None
    \/ (exists fd, Request.formData request = Some fd /\ FormData_get fd "file" = None)
    \/ (exists fd s, Request.formData request = Some fd
                     /\ FormData_get fd "file" = Some (FormString s))) ->
   Response.status (fetch env host request m).1 = 400
   /\ Response.body (fetch env host request m).1 = Some invalid_request_body)
  /\ (forall fd file,
        Request.formData request = Some fd ->
        FormData_get fd "file" = Some (FormFile file) ->
        Response.body (fetch env host request m).1 <> Some invalid_request_body
        /\ fetch env host request m = fetch env host (with_single_file request file) m).
Proof.
  intros Hreach Hfree. split.
  - intros Hshape. apply uploaded_file_None in Hshape.
    rewrite fetch_invalid_form by done. split; reflexivity.
  - intros fd file Hfd Hget.
    assert (Hfile : uploaded_file request = Some file).
    { apply uploaded_file_Some. by exists fd. }
    split; [by apply (proceeding_body_differs env host request m file) |].
    rewrite (fetch_reaches_limiter env host (with_single_file request file)) by done.
    rewrite fetch_reaches_limiter by done.
    unfold clientId, requestOrigin. simpl. fold (clientId request) (requestOrigin request).
    destruct (isRateLimited _ _ _) as [limited m1]. destruct limited; [done |].
    rewrite Hfile.
    replace (uploaded_file (with_single_file request file)) with (Some file)
      by reflexivity.
    reflexivity.
Qed.

Lemma first_file_part_decides_witness :
  Response.status (fetch env_open host0 text_field_request ∅).1 = 400
  /\ Response.body (fetch env_open host0 text_field_request ∅).1 = Some invalid_request_body.
Proof.
  apply (first_file_part_decides env_open host0 text_field_request ∅).
  - reflexivity.
  - reflexivity.
  - right; right.
    exists [("caption", FormString "hello"); ("file", FormString "photo.png")], "photo.png".
    split; reflexivity.
Defined.

(** C7: when every earlier stage passes and the bucket's [put] rejects,
    for whatever reason [err], the answer is 502 and its body is the fixed
    text below, in which [err] does not occur. *)
Theorem storage_failure_is_502 env host request m file err :
  reaches_limiter env request = true ->
  (isRateLimited (clientId request) (now_limiter host) m).1 = false ->
  uploaded_file request = Some file ->
  ToBoolean (get_property ALLOWED_TYPES (File.type file)) = true ->
  put (IMAGE_BUCKET env)
      (storage_key host (get_property ALLOWED_TYPES (File.type file)))
      (File.bytes file) (File.type file) = PutRejected err ->
  Response.status (fetch env host request m).1 = 502
  /\ Response.body (fetch env host request m).1 = Some storage_failed_body.
Proof.
  intros Hreach Hfree Hfile Hext Hput.
  rewrite (fetch_storage_failed env host request m Hreach Hfree file err) by done.
  split; reflexivity.
Qed.

Lemma storage_failure_is_502_witness :
  Response.status (fetch env_down host0 (upload_of "image/png") ∅).1 = 502
  /\ Response.body (fetch env_down host0 (upload_of "image/png") ∅).1
     = Some storage_failed_body.
Proof.
  apply (storage_failure_is_502 env_down host0 (upload_of "image/png") ∅
           (file_of_type "image/png") "R2 internal error 10001: bucket unavailable");
    reflexivity.
Defined.

(** The text of the bucket's error of [env_down] is nowhere in the body. *)
Lemma storage_error_text_not_exposed :
  put (IMAGE_BUCKET env_down)
      (storage_key host0 (JsString "png")) [] "image/png"
  = PutRejected "R2 internal error 10001: bucket unavailable"
  /\ (forall body,
        Response.body (fetch env_down host0 (upload_of "image/png") ∅).1 = Some body ->
        includes body "R2 internal error 10001: bucket unavailable" = false
        /\ includes body "R2" = false).
Proof.
  split; [reflexivity |].
  intros body Hbody. vm_compute in Hbody. injection Hbody as <-. split; reflexivity.
Qed.

(** ** The allow-list of types *)

Lemma own_property_allowed type ext :
  own_property ALLOWED_TYPES type = Some ext ->
  spec_allowed_type type /\ In ext ["jpg"; "png"; "gif"; "webp"; "svg"].
Proof.
  unfold ALLOWED_TYPES, spec_allowed_type. cbn [own_property].
  repeat match goal with
         | |- context [String.eqb ?a type] =>
             destruct (String.eqb_spec a type) as [<- | ?]
         end; intros Heq; simplify_eq; simpl; auto 10.
Qed.

Lemma allowed_type_own_property type :
  spec_allowed_type type -> exists ext, own_property ALLOWED_TYPES type = Some ext.
Proof.
  unfold spec_allowed_type. simpl.
  intros [<- | [<- | [<- | [<- | [<- | []]]]]]; eexists; reflexivity.
Qed.

Lemma unlisted_type_no_own_property type :
  ~ spec_allowed_type type -> own_property ALLOWED_TYPES type = None.
Proof.
  intros Hn. destruct (own_property ALLOWED_TYPES type) as [ext |] eqn:Hown; [| done].
  destruct Hn. by apply (own_property_allowed type ext).
Qed.

Lemma own_extension_truthy type ext :
  own_property ALLOWED_TYPES type = Some ext ->
  get_property ALLOWED_TYPES type = JsString ext
  /\ ToBoolean (get_property ALLOWED_TYPES type) = true.
Proof.
  intros Hown. unfold get_property. rewrite Hown. split; [done |].
  apply own_property_allowed in Hown as [_ Hext]. simpl in Hext.
  destruct Hext as [<- | [<- | [<- | [<- | [<- | []]]]]]; reflexivity.
Qed.

Lemma Object_prototype_truthy type :
  ToBoolean (Object_prototype type) = true <-> In type Object_prototype_names.
Proof.
  unfold Object_prototype, Object_prototype_names, Object_prototype_functions.
  cbn [existsb In].
  repeat match goal with
         | |- context [String.eqb type ?a] =>
             destruct (String.eqb_spec type a) as [-> | ?]
         end; simpl; intuition congruence.
Qed.

(** The declared types that get past the type check: the five of the
    allow-list, and the names of the members of [Object.prototype]. *)
Lemma type_check_passes_iff type :
  ToBoolean (get_property ALLOWED_TYPES type) = true
  <-> spec_allowed_type type \/ In type Object_prototype_names.
Proof.
  unfold get_property.
  destruct (own_property ALLOWED_TYPES type) as [ext |] eqn:Hown.
  - destruct (own_property_allowed type ext Hown) as [Hallowed _].
    destruct (own_extension_truthy type ext Hown) as [Hget Ht].
    rewrite Hget in Ht. split; [by left | done].
  - rewrite Object_prototype_truthy. split; [by right |].
    intros [Hallowed | Hproto]; [| done].
    apply allowed_type_own_property in Hallowed as [ext Hext]. congruence.
Qed.

Section TypeValidation.
Variable env : Env.
Variable host : Host.
Variable request : Request.t.
Variable m : gmap string Entry.
Variable file : File.t.

Hypothesis Hreach : reaches_limiter env request = true.
Hypothesis Hfree : (isRateLimited (clientId request) (now_limiter host) m).1 = false.
Hypothesis Hfile : uploaded_file request = Some file.

(** A declared type outside the allow-list that is not the name of a
    member of [Object.prototype] is refused with 400, and the message
    names the type and lists the five allowed types. *)
Lemma unlisted_type_is_400 :
  ~ spec_allowed_type (File.type file) ->
  Object_prototype (File.type file) = JsUndefined ->
  Response.status (fetch env host request m).1 = 400
  /\ Response.body (fetch env host request m).1
     = Some (JSON_stringify [("error", unsupported_type_message (File.type file))]).
Proof using Hreach Hfree Hfile.
  intros Hn Hproto.
  rewrite (fetch_unsupported_type env host request m Hreach Hfree file Hfile).
  - split; reflexivity.
  - unfold get_property. rewrite unlisted_type_no_own_property by done.
    now rewrite Hproto.
Qed.

(** An upload of an allow-listed type that the bucket stores is answered
    200, and [url] is the public base URL without its final slash,
    followed by the key [uploads/<millis>-<uuid>.<ext>] after one slash,
    with the extension the allow-list gives for the declared type. *)
Lemma stored_upload_url ext :
  own_property ALLOWED_TYPES (File.type file) = Some ext ->
  put (IMAGE_BUCKET env) (storage_key host (JsString ext))
      (File.bytes file) (File.type file) = PutResolved ->
  Response.status (fetch env host request m).1 = 200
  /\ Response.body (fetch env host request m).1
     = Some (JSON_stringify
               [("url",
                 strip_trailing_slash (R2_PUBLIC_URL env) +:+ "/uploads/"
                 +:+ Number_toString (now_key host) +:+ "-" +:+ randomUUID host
                 +:+ "." +:+ ext)]).
Proof using Hreach Hfree Hfile.
  intros Hown Hput. apply own_extension_truthy in Hown as [Hget Htruthy].
  rewrite (fetch_stored env host request m Hreach Hfree file Hfile Htruthy);
    rewrite Hget; [split; reflexivity | exact Hput].
Qed.
End TypeValidation.

Lemma strip_trailing_slash_slash s : strip_trailing_slash (s +:+ "/") = s.
Proof.
  induction s as [| c s IH]; [reflexivity |].
  simpl. rewrite IH. destruct s; reflexivity.
Qed.

Lemma strip_trailing_slash_other s c :
  c <> "/"%char -> strip_trailing_slash (s +:+ String c EmptyString) = s +:+ String c EmptyString.
Proof.
  intros Hc. induction s as [| d s IH].
  - simpl. apply Ascii.eqb_neq in Hc. now rewrite Hc.
  - simpl. rewrite IH. destruct s; reflexivity.
Qed.

(** The scenario of an unsupported type: a PDF. *)
Lemma pdf_upload_example :
  Response.status (fetch env_open host0 (upload_of "application/pdf") ∅).1 = 400
  /\ Response.body (fetch env_open host0 (upload_of "application/pdf") ∅).1
     = Some unsupported_pdf_body.
Proof. split; reflexivity. Qed.

(** The scenario of a PNG that is stored. *)
Lemma png_upload_example :
  Response.status (fetch env_open host0 (upload_of "image/png") ∅).1 = 200
  /\ Response.body (fetch env_open host0 (upload_of "image/png") ∅).1
     = Some (JSON_stringify
               [("url",
                 "https://pub-abc123.r2.dev/uploads/1700000000000-123e4567-e89b-42d3-a456-426614174000.png")]).
Proof. split; reflexivity. Qed.

(** C4 at the declared type [constructor]: the type is none of the five
    allowed ones, the request reaches type validation, and the handler
    does not answer 400: the property read on the allow-list object finds
    the inherited [Object.prototype.constructor], which is truthy, so the
    file is stored and the answer is 200. *)
Theorem inherited_name_passes_type_validation :
  ~ spec_allowed_type "constructor"
  /\ reaches_limiter env_open (upload_of "constructor") = true
  /\ uploaded_file (upload_of "constructor") = Some (file_of_type "constructor")
  /\ get_property ALLOWED_TYPES "constructor" = JsNativeFunction "Object"
  /\ Response.status (fetch env_open host0 (upload_of "constructor") ∅).1 = 200.
Proof.
  split; [| repeat split].
  unfold spec_allowed_type. simpl. intuition discriminate.
Qed.

(** C5 at the declared type [constructor]: the upload succeeds with 200
    although the allow-list maps the type to no extension, and the
    extension in the returned [url] is the text of the inherited
    function. *)
Theorem inherited_name_becomes_extension :
  own_property ALLOWED_TYPES "constructor" = None
  /\ Response.status (fetch env_open host0 (upload_of "constructor") ∅).1 = 200
  /\ Response.body (fetch env_open host0 (upload_of "constructor") ∅).1
     = Some (JSON_stringify
               [("url",
                 "https://pub-abc123.r2.dev/uploads/1700000000000-123e4567-e89b-42d3-a456-426614174000.function Object() { [native code] }")]).
Proof. repeat split. Qed.

(** ** Twenty requests per window *)

Section Window.
Variable env : Env.
Variable ip : string.

Lemma fetch_counted host request (m : gmap string Entry) :
  counted env ip (host, request) = true ->
  (fetch env host request m).2 = (isRateLimited ip (now_limiter host) m).2
  /\ ((isRateLimited ip (now_limiter host) m).1 = true ->
      Response.status (fetch env host request m).1 = 429)
  /\ ((isRateLimited ip (now_limiter host) m).1 = false ->
      In (Response.status (fetch env host request m).1) [200; 400; 502]).
Proof.
  unfold counted. simpl. intros H.
  apply andb_true_iff in H as [Hreach Hip]. apply bool_decide_eq_true in Hip.
  subst ip. repeat split.
  - rewrite fetch_reaches_limiter by done.
    destruct (isRateLimited _ _ _) as [[] m']; [done |].
    destruct (uploaded_file request); [| done].
    cbv zeta. destruct (ToBoolean _); [| done]. by destruct (put _ _ _ _).
  - intros Hlim. rewrite fetch_reaches_limiter by done.
    destruct (isRateLimited _ _ _) as [limited m']. simpl in Hlim. now subst limited.
  - intros Hfree. by apply fetch_past_limiter_status.
Qed.

Lemma fetch_not_counted host request (m : gmap string Entry) :
  counted env ip (host, request) = false ->
  (fetch env host request m).2 !! ip = m !! ip.
Proof.
  unfold counted. simpl. intros H.
  destruct (reaches_limiter env request) eqn:Hreach.
  - simpl in H. apply bool_decide_eq_false in H.
    rewrite fetch_reaches_limiter by done.
    rewrite <- (isRateLimited_other (clientId request) (now_limiter host) m ip) by done.
    destruct (isRateLimited _ _ _) as [[] m']; [done |].
    destruct (uploaded_file request); [| done].
    cbv zeta. destruct (ToBoolean _); [| done]. by destruct (put _ _ _ _).
  - by destruct (fetch_stopped_early env host request m Hreach) as [-> _].
Qed.

Lemma serve_cons host request trace (m : gmap string Entry) :
  (serve env ((host, request) :: trace) m).2
  = (serve env trace (fetch env host request m).2).2.
Proof.
  cbn [serve]. destruct (fetch env host request m) as [r m'].
  cbn [snd]. by destruct (serve env trace m') as [rs m''].
Qed.

(** Inside an open window the count climbs by one per counted request
    and stops at the maximum. *)
Lemma serve_in_window trace : forall (m : gmap string Entry) c start,
  m !! ip = Some {| count := c; windowStart := start |} ->
  c <= RATE_LIMIT_MAX ->
  Forall (within_window start) (List.filter (counted env ip) trace) ->
  (serve env trace m).2 !! ip
  = Some {| count := Z.min (c + Z.of_nat (length (List.filter (counted env ip) trace)))
                           RATE_LIMIT_MAX;
            windowStart := start |}.
Proof.
  induction trace as [| [host request] trace IH]; intros m c start Hm Hc Hwin.
  - simpl. rewrite Hm. do 2 f_equal. lia.
  - rewrite serve_cons. simpl in Hwin |- *.
    destruct (counted env ip (host, request)) eqn:Hcounted.
    + apply Forall_cons in Hwin as [Hnow Hwin]. unfold within_window in Hnow.
      simpl in Hnow.
      destruct (fetch_counted host request m Hcounted) as [-> _].
      destruct (Z_lt_le_dec c RATE_LIMIT_MAX) as [Hlt | Hge].
      * rewrite (isRateLimited_under ip (now_limiter host) m _ Hm) by done.
        simpl. rewrite (IH _ (c + 1) start); [| by rewrite lookup_insert_eq | lia | done].
        do 2 f_equal. simpl length. lia.
      * rewrite (isRateLimited_over ip (now_limiter host) m _ Hm) by done.
        simpl. rewrite (IH _ c start) by done.
        do 2 f_equal. simpl length. lia.
    + rewrite (IH _ c start); [done | | done | done].
      by rewrite fetch_not_counted.
Qed.

(** From the request that opens a window on. *)
Lemma serve_opens_window trace : forall (m : gmap string Entry) first rest,
  List.filter (counted env ip) trace = first :: rest ->
  opens_window m ip (now_limiter first.1) ->
  Forall (within_window (now_limiter first.1)) rest ->
  (serve env trace m).2 !! ip
  = Some {| count := Z.min (1 + Z.of_nat (length rest)) RATE_LIMIT_MAX;
            windowStart := now_limiter first.1 |}.
Proof.
  induction trace as [| [host request] trace IH]; intros m first rest Hfilter Hopen Hwin.
  - discriminate.
  - rewrite serve_cons. simpl in Hfilter.
    destruct (counted env ip (host, request)) eqn:Hcounted.
    + injection Hfilter as <- Hrest. simpl in Hopen |- *.
      destruct (fetch_counted host request m Hcounted) as [-> _].
      assert (Hm' : (isRateLimited ip (now_limiter host) m).2 !! ip
                    = Some {| count := 1; windowStart := now_limiter host |}).
      { unfold opens_window in Hopen.
        destruct (m !! ip) as [entry |] eqn:Hm.
        - rewrite (isRateLimited_expired ip (now_limiter host) m entry Hm Hopen).
          apply lookup_insert_eq.
        - rewrite (isRateLimited_fresh ip (now_limiter host) m Hm).
          apply lookup_insert_eq. }
      rewrite (serve_in_window trace _ 1 (now_limiter host) Hm');
        [by rewrite Hrest | unfold RATE_LIMIT_MAX; lia | by rewrite Hrest].
    + apply IH; [done | | done].
      unfold opens_window in Hopen |- *. by rewrite fetch_not_counted.
Qed.

(** The request that follows [n] counted requests of one window. *)
Lemma next_in_window trace (m0 : gmap string Entry) first rest host request :
  List.filter (counted env ip) trace = first :: rest ->
  opens_window m0 ip (now_limiter first.1) ->
  Forall (within_window (now_limiter first.1)) (rest ++ [(host, request)]) ->
  counted env ip (host, request) = true ->
  let m := (serve env trace m0).2 in
  let n := Z.of_nat (length (first :: rest)) in
  (n < RATE_LIMIT_MAX ->
   In (Response.status (fetch env host request m).1) [200; 400; 502]
   /\ (fetch env host request m).2 !! ip
      = Some {| count := n + 1; windowStart := now_limiter first.1 |})
  /\ (RATE_LIMIT_MAX <= n ->
      Response.status (fetch env host request m).1 = 429
      /\ (fetch env host request m).2 = m).
Proof.
  intros Hfilter Hopen Hwin Hcounted m n.
  apply Forall_app in Hwin as [Hrest Hnow].
  apply Forall_cons in Hnow as [Hnow _]. unfold within_window in Hnow. simpl in Hnow.
  pose proof (serve_opens_window trace m0 first rest Hfilter Hopen Hrest) as Hm.
  fold m in Hm.
  destruct (fetch_counted host request m Hcounted) as (Hmap & Hlimited & Hfree).
  subst n. simpl length. split.
  - intros Hn.
    rewrite Z.min_l in Hm by lia.
    rewrite (isRateLimited_under ip (now_limiter host) m _ Hm) in Hmap, Hfree
      by (simpl; lia).
    split; [by apply Hfree |].
    rewrite Hmap. simpl. rewrite lookup_insert_eq. do 2 f_equal. lia.
  - intros Hn.
    rewrite Z.min_r in Hm by lia.
    rewrite (isRateLimited_over ip (now_limiter host) m _ Hm) in Hmap, Hlimited
      by (simpl; lia).
    split; [by apply Hlimited | exact Hmap].
Qed.
End Window.

(** C2: take the requests that passed authentication for one client
    identifier, starting from the one that opens a window, all read within
    60000 ms of that first one, with any other requests served in between.
    The request that comes after 19 of them, the 20th, is not limited: its
    status is 200, 400 or 502, the status of a later stage, and the count
    becomes 20. The request that comes after 20 of them, the 21st, is
    answered 429 and leaves the map, and so the count, unchanged. *)
Theorem twentieth_passes_twenty_first_is_429
    env ip (m0 : gmap string Entry) trace first rest host request :
  List.filter (counted env ip) trace = first :: rest ->
  opens_window m0 ip (now_limiter first.1) ->
  Forall (fun inv => now_limiter inv.1 - now_limiter first.1 <= 60000)
         (rest ++ [(host, request)]) ->
  counted env ip (host, request) = true ->
  let m := (serve env trace m0).2 in
  (length (first :: rest) = 19%nat ->
   In (Response.status (fetch env host request m).1) [200; 400; 502]
   /\ (fetch env host request m).2 !! ip
      = Some {| count := 20; windowStart := now_limiter first.1 |})
  /\ (length (first :: rest) = 20%nat ->
      Response.status (fetch env host request m).1 = 429
      /\ (fetch env host request m).2 = m).
Proof.
  intros Hfilter Hopen Hwin Hcounted m.
  destruct (next_in_window env ip trace m0 first rest host request
              Hfilter Hopen Hwin Hcounted) as [Hunder Hover].
  fold m in Hunder, Hover. split; intros Hlen; rewrite Hlen in *.
  - apply Hunder. unfold RATE_LIMIT_MAX. lia.
  - apply Hover. unfold RATE_LIMIT_MAX. lia.
Qed.

Lemma twentieth_passes_twenty_first_is_429_witness :
  Response.status
    (fetch env_open (host_at 1700000060000) (upload_from "203.0.113.7")
       (serve env_open busy_minute ∅).2).1 = 429.
Proof.
  assert (Hfilter : List.filter (counted env_open "203.0.113.7") busy_minute
                    = (host_at 1700000000000, upload_from "203.0.113.7")
                      :: tl (burst "203.0.113.7" 3000 20)).
  { vm_compute. reflexivity. }
  assert (Hwin : Forall
                   (fun inv : Host * Request.t =>
                      now_limiter inv.1 - 1700000000000 <= 60000)
                   (tl (burst "203.0.113.7" 3000 20)
                    ++ [(host_at 1700000060000, upload_from "203.0.113.7")])).
  { apply (bool_decide_unpack _). vm_compute. exact I. }
  exact (proj1 (proj2 (twentieth_passes_twenty_first_is_429 env_open "203.0.113.7" ∅
                         busy_minute (host_at 1700000000000, upload_from "203.0.113.7")
                         (tl (burst "203.0.113.7" 3000 20))
                         (host_at 1700000060000) (upload_from "203.0.113.7")
                         Hfilter I Hwin eq_refl) eq_refl)).
Defined.

(** The twentieth upload of the same minute is stored. *)
Lemma twentieth_upload_example :
  Response.status
    (fetch env_open (host_at 1700000057000) (upload_from "203.0.113.7")
       (serve env_open ((host0, keyless_post) :: burst "203.0.113.7" 3000 19) ∅).2).1
  = 200.
Proof. vm_compute. reflexivity. Qed.

(** ** Which requests get which status *)

Lemma fetch_status env host request m :
  Response.status (fetch env host request m).1 = status_of env host request m.
Proof.
  unfold status_of.
  destruct (decide (Request.method request = "OPTIONS")) as [Ho | Ho].
  { rewrite fetch_preflight by done. now rewrite Ho. }
  destruct (decide (Request.method request = "POST")) as [Hp | Hp].
  2:{ rewrite fetch_method_not_allowed by done.
      apply String.eqb_neq in Ho, Hp. now rewrite Ho, Hp. }
  rewrite Hp. cbn [String.eqb Ascii.eqb Bool.eqb negb].
  destruct (passes_origin_check env request) eqn:Horigin.
  2:{ by rewrite fetch_origin_not_allowed. }
  destruct (passes_key_check env request) eqn:Hkey.
  2:{ by rewrite fetch_unauthorized. }
  cbn [negb].
  rewrite fetch_reaches_limiter
    by (unfold reaches_limiter; now rewrite Hp, Horigin, Hkey).
  unfold limited. destruct (isRateLimited _ _ _) as [[] m']; [done |].
  cbn [fst]. destruct (uploaded_file request) as [file |]; [| done].
  cbv zeta. destruct (ToBoolean _); [| done]. by destruct (put _ _ _ _).
Qed.

Lemma key_accepted_check env request :
  key_accepted env request <-> passes_key_check env request = true.
Proof.
  unfold key_accepted, passes_key_check.
  rewrite negb_true_iff, orb_false_iff, !negb_false_iff, bool_decide_eq_true.
  split.
  - intros (secret & Hsecret & Hne & Hkey). rewrite Hsecret, Hkey. split; [| done].
    simpl. apply negb_true_iff. by apply String.eqb_neq.
  - intros [Htruthy Heq]. destruct (UPLOAD_API_KEY env) as [secret |]; [| done].
    exists secret. simpl in Htruthy. apply negb_true_iff, String.eqb_neq in Htruthy.
    done.
Qed.

Lemma reaches_limiter_iff env request :
  reaches_limiter env request = true
  <-> Request.method request = "POST"
      /\ origin_accepted env request /\ key_accepted env request.
Proof.
  unfold reaches_limiter.
  rewrite !andb_true_iff, String.eqb_eq, origin_accepted_check, key_accepted_check.
  tauto.
Qed.

(** The method alone decides the first two answers: 204 exactly for
    OPTIONS, 405 exactly for a method that is neither OPTIONS nor POST,
    whatever the configuration, the headers and the state of the limiter. *)
Theorem method_routing env host request m :
  (Response.status (fetch env host request m).1 = 204
   <-> Request.method request = "OPTIONS")
  /\ (Response.status (fetch env host request m).1 = 405
      <-> Request.method request <> "OPTIONS" /\ Request.method request <> "POST").
Proof.
  rewrite fetch_status. unfold status_of.
  destruct (String.eqb_spec (Request.method request) "OPTIONS") as [Ho | Ho].
  { split; split; try done. intros [? _]. done. }
  destruct (String.eqb_spec (Request.method request) "POST") as [Hp | Hp];
    cbn [negb].
  2:{ split; split; done. }
  assert (Hrest : forall z : Z,
            (if negb (passes_origin_check env request) then 403
             else if negb (passes_key_check env request) then 401
             else if limited host request m then 429
             else match uploaded_file request with
                  | Some file =>
                      if ToBoolean (get_property ALLOWED_TYPES (File.type file))
                      then match put (IMAGE_BUCKET env)
                                   (storage_key host
                                      (get_property ALLOWED_TYPES (File.type file)))
                                   (File.bytes file) (File.type file) with
                           | PutResolved => 200
                           | PutRejected _ => 502
                           end
                      else 400
                  | None => 400
                  end) = z -> In z [403; 401; 429; 400; 200; 502]).
  { intros z <-. repeat (case_match; simpl; auto 10). }
  split; split; intros H; try done.
  - apply Hrest in H. simpl in H. intuition lia.
  - apply Hrest in H. simpl in H. intuition lia.
  - by destruct H.
Qed.

Lemma forbidden_iff_foreign_origin_aux env host request m :
  Response.status (fetch env host request m).1 = 403
  <-> Request.method request = "POST" /\ ~ origin_accepted env request.
Proof.
  rewrite fetch_status, origin_accepted_check. unfold status_of.
  destruct (String.eqb_spec (Request.method request) "OPTIONS") as [Ho | Ho].
  { split; [done | intros [Hp _]; congruence]. }
  destruct (String.eqb_spec (Request.method request) "POST") as [Hp | Hp];
    cbn [negb]; [| split; [done | intros [? _]; done]].
  destruct (passes_origin_check env request); cbn [negb].
  2:{ split; [intros _; split; [done | discriminate] | done]. }
  split; [| intros [_ H]; by destruct H].
  repeat (case_match; try discriminate).
Qed.

(** 403 is the answer exactly to a POST whose Origin header is not the
    configured origin, when one is configured; neither the key nor the body
    is looked at. *)
Theorem forbidden_iff_foreign_origin env host request m :
  Response.status (fetch env host request m).1 = 403
  <-> Request.method request = "POST" /\ ~ origin_accepted env request.
Proof. apply forbidden_iff_foreign_origin_aux. Qed.

Lemma status_401_iff env host request m :
  Response.status (fetch env host request m).1 = 401
  <-> Request.method request = "POST"
      /\ origin_accepted env request /\ ~ key_accepted env request.
Proof.
  rewrite fetch_status, origin_accepted_check, key_accepted_check. unfold status_of.
  destruct (String.eqb_spec (Request.method request) "OPTIONS") as [Ho | Ho].
  { split; [done | intros [Hp _]; congruence]. }
  destruct (String.eqb_spec (Request.method request) "POST") as [Hp | Hp];
    cbn [negb]; [| split; [done | intros [? _]; done]].
  destruct (passes_origin_check env request); cbn [negb].
  2:{ split; [done | intros (_ & ? & _); done]. }
  destruct (passes_key_check env request); cbn [negb].
  2:{ split; [intros _; repeat split; [done | discriminate] | done]. }
  split; [| intros (_ & _ & H); by destruct H].
  repeat (case_match; try discriminate).
Qed.

(** 401 is the answer exactly to a POST that passes the origin check and
    does not carry the configured non-empty secret. *)
Theorem unauthorized_iff_key_rejected env host request m :
  Response.status (fetch env host request m).1 = 401
  <-> Request.method request = "POST"
      /\ origin_accepted env request /\ ~ key_accepted env request.
Proof. apply status_401_iff. Qed.

(** 429 is the answer exactly to a request that passes the three guards
    and that the limiter refuses. *)
Theorem too_many_requests_iff_limited env host request m :
  Response.status (fetch env host request m).1 = 429
  <-> reaches_limiter env request = true /\ limited host request m = true.
Proof.
  rewrite fetch_status. unfold status_of, reaches_limiter.
  destruct (String.eqb_spec (Request.method request) "OPTIONS") as [Ho | Ho].
  { rewrite Ho. simpl. split; [done | intros [? _]; done]. }
  destruct (String.eqb (Request.method request) "POST"); cbn [negb andb];
    [| split; [done | intros [? _]; done]].
  destruct (passes_origin_check env request); cbn [negb andb];
    [| split; [done | intros [? _]; done]].
  destruct (passes_key_check env request); cbn [negb andb];
    [| split; [done | intros [? _]; done]].
  destruct (limited host request m); [done |].
  split; [| intros [_ ?]; done].
  repeat (case_match; try discriminate).
Qed.

Lemma status_200_iff env host request m :
  Response.status (fetch env host request m).1 = 200
  <-> reaches_limiter env request = true
      /\ limited host request m = false
      /\ stored env host request.
Proof.
  rewrite fetch_status. unfold status_of, reaches_limiter, stored.
  destruct (String.eqb_spec (Request.method request) "OPTIONS") as [Ho | Ho].
  { rewrite Ho. simpl. split; [done | intros [? _]; done]. }
  destruct (String.eqb (Request.method request) "POST"); cbn [negb andb];
    [| split; [done | intros [? _]; done]].
  destruct (passes_origin_check env request); cbn [negb andb];
    [| split; [done | intros [? _]; done]].
  destruct (passes_key_check env request); cbn [negb andb];
    [| split; [done | intros [? _]; done]].
  destruct (limited host request m); [split; [done | intros (_ & ? & _); done] |].
  destruct (uploaded_file request) as [file |].
  2:{ split; [done | intros (_ & _ & f & ? & _); done]. }
  cbv zeta.
  destruct (ToBoolean (get_property ALLOWED_TYPES (File.type file))) eqn:Hext.
  2:{ split; [done |]. intros (_ & _ & f & Hf & Ht & _). simplify_eq. congruence. }
  destruct (put _ _ _ _) eqn:Hput.
  - split; [| done]. intros _. repeat split. by exists file.
  - split; [done |]. intros (_ & _ & f & Hf & _ & Hp). simplify_eq. congruence.
Qed.

(** 200 is the answer exactly when the request passes the three guards,
    is not limited, and the bucket resolved the [put] of its file under the
    generated key: no URL is handed out for an object that was not stored. *)
Theorem ok_iff_stored env host request m :
  Response.status (fetch env host request m).1 = 200
  <-> reaches_limiter env request = true
      /\ limited host request m = false
      /\ stored env host request.
Proof. apply status_200_iff. Qed.

(** ** What a request does to the rate-limit map *)

Lemma fetch_map env host request (m : gmap string Entry) :
  (fetch env host request m).2
  = if reaches_limiter env request
    then (isRateLimited (clientId request) (now_limiter host) m).2
    else m.
Proof.
  destruct (reaches_limiter env request) eqn:Hreach.
  - rewrite fetch_reaches_limiter by done.
    destruct (isRateLimited _ _ _) as [[] m']; [done |].
    destruct (uploaded_file request); [| done].
    cbv zeta. destruct (ToBoolean _); [| done]. by destruct (put _ _ _ _).
  - by destruct (fetch_stopped_early env host request m Hreach) as [-> _].
Qed.

(** The limiter refuses exactly when the identifier has an entry whose
    window is still open and whose count has reached the maximum; a refusal
    changes nothing in the map. *)
Theorem limiter_refuses_iff ip now (m : gmap string Entry) :
  ((isRateLimited ip now m).1 = true
   <-> exists entry, m !! ip = Some entry
                     /\ now - windowStart entry <= 60000 /\ 20 <= count entry)
  /\ ((isRateLimited ip now m).1 = true -> (isRateLimited ip now m).2 = m).
Proof.
  unfold isRateLimited, RATE_LIMIT_WINDOW_MS, RATE_LIMIT_MAX.
  destruct (m !! ip) as [entry |]; simpl.
  2:{ split; [split; [done | intros (? & ? & _); done] | done]. }
  destruct (Z.gtb_spec (now - windowStart entry) 60000); simpl.
  { split; [split; [done |] | done]. intros (e & He & ? & _). simplify_eq. lia. }
  destruct (Z.geb_spec (count entry) 20); simpl.
  - split; [split; [| done] | done]. intros _. exists entry. repeat split; [lia | lia].
  - split; [split; [done |] | done]. intros (e & He & _ & ?). simplify_eq. lia.
Qed.

(** Only the limiter writes to the map: a request stopped by the method,
    origin or key check leaves the map as it was, and a request that gets
    past them leaves it as the limiter left it, whatever the later stages
    answer. *)
Theorem map_written_by_limiter_only env host request (m : gmap string Entry) :
  (reaches_limiter env request = false -> (fetch env host request m).2 = m)
  /\ (reaches_limiter env request = true ->
      (fetch env host request m).2
      = (isRateLimited (clientId request) (now_limiter host) m).2).
Proof. rewrite fetch_map. split; intros ->; reflexivity. Qed.

(** An upload refused with 400 or failed with 502 still uses up one of the
    twenty requests of its window: the count of its identifier has gone up
    by one. *)
Theorem failed_upload_is_counted env host request (m : gmap string Entry) entry :
  m !! clientId request = Some entry ->
  now_limiter host - windowStart entry <= 60000 ->
  Response.status (fetch env host request m).1 = 400
  \/ Response.status (fetch env host request m).1 = 502 ->
  (fetch env host request m).2 !! clientId request
  = Some {| count := count entry + 1; windowStart := windowStart entry |}.
Proof.
  intros Hm Hwin Hstatus.
  assert (Hpast : reaches_limiter env request = true /\ limited host request m = false).
  { rewrite fetch_status in Hstatus. unfold status_of, reaches_limiter in *.
    destruct (String.eqb (Request.method request) "OPTIONS"); [lia |].
    destruct (String.eqb (Request.method request) "POST"); cbn [negb] in *; [| lia].
    destruct (passes_origin_check env request); cbn [negb] in *; [| lia].
    destruct (passes_key_check env request); cbn [negb] in *; [| lia].
    destruct (limited host request m); [lia | done]. }
  destruct Hpast as [Hreach Hfree].
  rewrite fetch_map, Hreach.
  unfold limited in Hfree.
  destruct (Z_lt_le_dec (count entry) RATE_LIMIT_MAX) as [Hlt | Hge].
  - rewrite (isRateLimited_under _ _ _ entry Hm) by done.
    simpl. apply lookup_insert_eq.
  - rewrite (isRateLimited_over _ _ _ entry Hm) in Hfree by done. done.
Qed.

Lemma failed_upload_is_counted_witness :
  (fetch env_down host0 (upload_of "image/png")
     {[ "unknown" := {| count := 7; windowStart := 1699999990000 |} ]}).2 !! "unknown"
  = Some {| count := 8; windowStart := 1699999990000 |}.
Proof.
  exact (failed_upload_is_counted env_down host0 (upload_of "image/png")
           {[ "unknown" := {| count := 7; windowStart := 1699999990000 |} ]}
           {| count := 7; windowStart := 1699999990000 |}
           eq_refl ltac:(vm_compute; discriminate) (or_intror eq_refl)).
Defined.

(** A request never changes the entry of another identifier. *)
Theorem other_clients_untouched env host request (m : gmap string Entry) ip :
  ip <> clientId request ->
  (fetch env host request m).2 !! ip = m !! ip.
Proof.
  intros Hne. rewrite fetch_map.
  destruct (reaches_limiter env request); [| done].
  by apply isRateLimited_other.
Qed.

Lemma other_clients_untouched_witness :
  (fetch env_open host0 (upload_from "203.0.113.7")
     {[ "198.51.100.9" := {| count := 20; windowStart := 1699999990000 |} ]}).2
    !! "198.51.100.9"
  = Some {| count := 20; windowStart := 1699999990000 |}.
Proof.
  rewrite (other_clients_untouched env_open host0 (upload_from "203.0.113.7")
             {[ "198.51.100.9" := {| count := 20; windowStart := 1699999990000 |} ]}
             "198.51.100.9" ltac:(vm_compute; discriminate)).
  reflexivity.
Defined.

Lemma isRateLimited_dom ip now (m : gmap string Entry) :
  dom (isRateLimited ip now m).2 = {[ip]} ∪ dom m.
Proof.
  unfold isRateLimited. destruct (m !! ip) as [entry |] eqn:Hm; simpl.
  - destruct (_ >? _); simpl; [by rewrite dom_insert_L |].
    destruct (_ >=? _); simpl; [| by rewrite dom_insert_L].
    apply (elem_of_dom_2 (D := gset string)) in Hm.
    symmetry. apply subseteq_union_1_L. by apply singleton_subseteq_l.
  - by rewrite dom_insert_L.
Qed.

Lemma isRateLimited_bounded ip now (m : gmap string Entry) :
  counts_bounded m -> counts_bounded (isRateLimited ip now m).2.
Proof.
  unfold counts_bounded, isRateLimited, RATE_LIMIT_MAX. intros Hm.
  destruct (m !! ip) as [entry |] eqn:Hip; simpl.
  - destruct (_ >? _); simpl; [apply map_Forall_insert_2; [simpl; lia | done] |].
    destruct (Z.geb_spec (count entry) 20); simpl; [done |].
    apply map_Forall_insert_2; [| done].
    specialize (Hm ip entry Hip). simpl in *. lia.
  - apply map_Forall_insert_2; [simpl; lia | done].
Qed.

(** Entries are created for the identifiers of the requests that get past
    the three guards, and for no others; no entry is ever removed. *)
Theorem serve_domain env trace : forall m : gmap string Entry,
  dom (serve env trace m).2
  = dom m ∪ list_to_set (map (fun inv => clientId inv.2)
                             (List.filter (fun inv => reaches_limiter env inv.2) trace)).
Proof.
  induction trace as [| [host request] trace IH]; intros m.
  - simpl. symmetry. apply union_empty_r_L.
  - rewrite serve_cons, IH, fetch_map. simpl.
    destruct (reaches_limiter env request); simpl; [| done].
    rewrite isRateLimited_dom.
    rewrite (comm_L (∪) {[clientId request]} (dom m)). symmetry. apply assoc_L, _.
Qed.

(** Serving requests keeps every count between 1 and 20. *)
Theorem serve_counts_bounded env trace : forall m : gmap string Entry,
  counts_bounded m -> counts_bounded (serve env trace m).2.
Proof.
  induction trace as [| [host request] trace IH]; intros m Hm; [done |].
  rewrite serve_cons. apply IH. rewrite fetch_map.
  destruct (reaches_limiter env request); [| done].
  by apply isRateLimited_bounded.
Qed.

Lemma serve_counts_bounded_witness :
  counts_bounded (serve env_open busy_minute ∅).2.
Proof.
  apply (serve_counts_bounded env_open busy_minute ∅).
  unfold counts_bounded. apply map_Forall_empty.
Defined.

(** The lock-out ends with the window, however many requests were made in
    it: a counted request read more than 60000 ms after the request that
    opened the window is let through and opens a new window, with count 1.
    Refused requests have not moved the start of the window. *)
Theorem lockout_ends_with_window
    env ip (m0 : gmap string Entry) trace first rest host request :
  List.filter (counted env ip) trace = first :: rest ->
  opens_window m0 ip (now_limiter first.1) ->
  Forall (fun inv => now_limiter inv.1 - now_limiter first.1 <= 60000) rest ->
  counted env ip (host, request) = true ->
  now_limiter host - now_limiter first.1 > 60000 ->
  let m := (serve env trace m0).2 in
  In (Response.status (fetch env host request m).1) [200; 400; 502]
  /\ (fetch env host request m).2 !! ip
     = Some {| count := 1; windowStart := now_limiter host |}.
Proof.
  intros Hfilter Hopen Hwin Hcounted Hlate m.
  pose proof (serve_opens_window env ip trace m0 first rest Hfilter Hopen Hwin) as Hm.
  fold m in Hm.
  destruct (fetch_counted env ip host request m Hcounted) as (Hmap & _ & Hfree).
  rewrite (isRateLimited_expired ip (now_limiter host) m _ Hm) in Hmap, Hfree
    by (simpl; unfold RATE_LIMIT_WINDOW_MS; lia).
  split; [by apply Hfree |].
  rewrite Hmap. simpl. apply lookup_insert_eq.
Qed.

Lemma lockout_ends_with_window_witness :
  (fetch env_open (host_at 1700000060001) (upload_from "203.0.113.7")
     (serve env_open busy_minute ∅).2).2 !! "203.0.113.7"
  = Some {| count := 1; windowStart := 1700000060001 |}.
Proof.
  assert (Hfilter : List.filter (counted env_open "203.0.113.7") busy_minute
                    = (host_at 1700000000000, upload_from "203.0.113.7")
                      :: tl (burst "203.0.113.7" 3000 20)).
  { vm_compute. reflexivity. }
  assert (Hwin : Forall
                   (fun inv : Host * Request.t =>
                      now_limiter inv.1 - 1700000000000 <= 60000)
                   (tl (burst "203.0.113.7" 3000 20))).
  { apply (bool_decide_unpack _). vm_compute. exact I. }
  exact (proj2 (lockout_ends_with_window env_open "203.0.113.7" ∅ busy_minute
                  (host_at 1700000000000, upload_from "203.0.113.7")
                  (tl (burst "203.0.113.7" 3000 20))
                  (host_at 1700000060001) (upload_from "203.0.113.7")
                  Hfilter I Hwin eq_refl eq_refl)).
Defined.

(** ** The public base URL *)

Lemma append_assoc a b c : (a +:+ b) +:+ c = a +:+ b +:+ c.
Proof.
  induction a as [| x a IH]; [reflexivity |].
  change (String x ((a +:+ b) +:+ c) = String x (a +:+ b +:+ c)). by rewrite IH.
Qed.

(** The replacement on the public base URL removes one final slash and
    nothing else: a URL that ends in a slash loses that slash only, so of
    two final slashes one stays; a URL that does not end in a slash, the
    empty one included, is unchanged. *)
Theorem strip_trailing_slash_spec s :
  strip_trailing_slash (s +:+ "/") = s
  /\ strip_trailing_slash (s +:+ "//") = s +:+ "/"
  /\ (forall c, c <> "/"%char ->
        strip_trailing_slash (s +:+ String c EmptyString) = s +:+ String c EmptyString)
  /\ strip_trailing_slash EmptyString = EmptyString.
Proof.
  repeat split.
  - apply strip_trailing_slash_slash.
  - replace (s +:+ "//") with ((s +:+ "/") +:+ "/") by apply append_assoc.
    apply strip_trailing_slash_slash.
  - intros c Hc. by apply strip_trailing_slash_other.
Qed.

(** ** A blank allowed origin *)

Lemma trimStart_all_whitespace s : all_whitespace s -> trimStart s = EmptyString.
Proof.
  unfold all_whitespace. induction s as [| c s IH]; [done |].
  simpl. intros H. apply Forall_cons in H as [Hc Hs]. rewrite Hc. by apply IH.
Qed.

(** An [ALLOWED_ORIGIN] made of white space only restricts nothing: no
    request is answered 403, and the Access-Control-Allow-Origin header
    echoes the request's origin, or is the star without one. *)
Theorem blank_origin_restricts_nothing env host request m s :
  ALLOWED_ORIGIN env = Some s ->
  all_whitespace s ->
  Response.status (fetch env host request m).1 <> 403
  /\ Response_header (fetch env host request m).1 "Access-Control-Allow-Origin"
     = Some (default "*" (requestOrigin request)).
Proof.
  intros Hs Hblank.
  assert (Hfree : origin_unrestricted env).
  { right. exists s. split; [done |].
    unfold trim. by rewrite trimStart_all_whitespace. }
  apply origin_unrestricted_falsy in Hfree. split.
  - rewrite forbidden_iff_foreign_origin_aux. intros [_ Hn]. apply Hn. by left.
  - rewrite fetch_allow_origin. f_equal. by apply getAllowedOrigin_unrestricted.
Qed.

Lemma blank_origin_restricts_nothing_witness :
  Response.status (fetch env_blank_origin host0 foreign_upload ∅).1 <> 403
  /\ Response_header (fetch env_blank_origin host0 foreign_upload ∅).1
       "Access-Control-Allow-Origin" = Some "https://b.example".
Proof.
  apply (blank_origin_restricts_nothing env_blank_origin host0 foreign_upload ∅ "   ").
  - reflexivity.
  - unfold all_whitespace. simpl. repeat constructor.
Defined.

(** ** What of the uploaded file is used *)

(** Only the declared type and the bytes of the uploaded file are used:
    two requests with the same method and headers whose files differ in
    name only get the same response and leave the same map, so the name
    the client gave never reaches the storage key or the URL. *)
Theorem file_name_is_ignored env host request request' m file file' :
  Request.method request' = Request.method request ->
  Request.headers request' = Request.headers request ->
  uploaded_file request = Some file ->
  uploaded_file request' = Some file' ->
  File.type file' = File.type file ->
  File.bytes file' = File.bytes file ->
  fetch env host request' m = fetch env host request m.
Proof.
  intros Hmethod Hheaders Hfile Hfile' Htype Hbytes.
  assert (Hreach : reaches_limiter env request' = reaches_limiter env request).
  { unfold reaches_limiter, passes_origin_check, passes_key_check, requestOrigin, apiKey.
    by rewrite Hmethod, Hheaders. }
  destruct (reaches_limiter env request) eqn:Hr.
  - rewrite !fetch_reaches_limiter by done.
    unfold clientId, requestOrigin. rewrite Hheaders, Hfile, Hfile'.
    cbv zeta. by rewrite Htype, Hbytes.
  - unfold reaches_limiter in Hr, Hreach.
    destruct (decide (Request.method request = "OPTIONS")) as [Ho | Ho].
    { rewrite (fetch_preflight env host request' m) by (by rewrite Hmethod).
      rewrite (fetch_preflight env host request m) by done.
      unfold requestOrigin. by rewrite Hheaders. }
    destruct (decide (Request.method request = "POST")) as [Hp | Hp].
    2:{ rewrite (fetch_method_not_allowed env host request' m)
          by (by rewrite Hmethod).
        rewrite (fetch_method_not_allowed env host request m) by done.
        unfold requestOrigin. by rewrite Hheaders. }
    assert (Hp' : Request.method request' = "POST") by (by rewrite Hmethod).
    assert (Ho' : passes_origin_check env request' = passes_origin_check env request).
    { unfold passes_origin_check, requestOrigin. by rewrite Hheaders. }
    rewrite Hp in Hr. rewrite Hp' in Hreach. simpl in Hr, Hreach.
    rewrite Ho' in Hreach.
    destruct (passes_origin_check env request) eqn:Horigin; simpl in Hr, Hreach.
    + rewrite (fetch_unauthorized env host request' m) by done.
      rewrite (fetch_unauthorized env host request m) by done.
      unfold requestOrigin. by rewrite Hheaders.
    + rewrite (fetch_origin_not_allowed env host request' m) by done.
      rewrite (fetch_origin_not_allowed env host request m) by done.
      unfold requestOrigin. by rewrite Hheaders.
Qed.

Lemma file_name_is_ignored_witness :
  fetch env_open host0
    (with_single_file (upload_of "image/png")
       (rename_file "../../etc/passwd" (file_of_type "image/png"))) ∅
  = fetch env_open host0 (upload_of "image/png") ∅.
Proof.
  apply (file_name_is_ignored env_open host0 (upload_of "image/png")
           (with_single_file (upload_of "image/png")
              (rename_file "../../etc/passwd" (file_of_type "image/png")))
           ∅ (file_of_type "image/png")
           (rename_file "../../etc/passwd" (file_of_type "image/png")));
    reflexivity.
Defined.

(** ** The content type of the responses *)

(** The preflight response has no body and no Content-Type header; every
    other response has a body and the Content-Type application/json. *)
Theorem json_unless_preflight env host request m :
  let r := (fetch env host request m).1 in
  (Request.method request = "OPTIONS" ->
   Response.body r = None /\ Response_header r "Content-Type" = None)
  /\ (Request.method request <> "OPTIONS" ->
      is_Some (Response.body r)
      /\ Response_header r "Content-Type" = Some "application/json").
Proof.
  intros r. subst r. split.
  - intros Ho. rewrite fetch_preflight by done. split; reflexivity.
  - intros Ho.
    destruct (reaches_limiter env request) eqn:Hreach.
    + rewrite fetch_reaches_limiter by done.
      destruct (isRateLimited _ _ _) as [[] m']; [split; [by eexists | reflexivity] |].
      destruct (uploaded_file request) as [file |];
        [| split; [by eexists | reflexivity]].
      cbv zeta. destruct (ToBoolean _); [| split; [by eexists | reflexivity]].
      destruct (put _ _ _ _); split; (by eexists) || reflexivity.
    + unfold reaches_limiter in Hreach.
      destruct (decide (Request.method request = "POST")) as [Hp | Hp].
      2:{ rewrite fetch_method_not_allowed by done. split; [by eexists | reflexivity]. }
      rewrite Hp in Hreach. simpl in Hreach.
      destruct (passes_origin_check env request) eqn:Horigin.
      * simpl in Hreach. rewrite fetch_unauthorized by done.
        split; [by eexists | reflexivity].
      * rewrite fetch_origin_not_allowed by done. split; [by eexists | reflexivity].
Qed.

(** ** JSON texts read back *)

Lemma JSON_read_escape c tail :
  JSON_read_string (JSON_escape c +:+ tail) = prepend c (JSON_read_string tail).
Proof. destruct c as [[] [] [] [] [] [] [] []]; reflexivity. Qed.

Lemma JSON_read_escape_all s after :
  JSON_read_string (JSON_escape_all s +:+ String dquote after) = Some (s, after).
Proof.
  induction s as [| c s IH]; [reflexivity |].
  cbn [JSON_escape_all]. rewrite append_assoc, JSON_read_escape, IH. reflexivity.
Qed.

Lemma append_cons c a b : String c a +:+ b = String c (a +:+ b).
Proof. reflexivity. Qed.

Lemma append_nil_l b : EmptyString +:+ b = b.
Proof. reflexivity. Qed.

Lemma member_text k v tail :
  (JSON_quote k +:+ ":" +:+ JSON_quote v) +:+ tail
  = String dquote
      (JSON_escape_all k
       +:+ String dquote
             (String ":"
                (String dquote (JSON_escape_all v +:+ String dquote tail)))).
Proof.
  unfold JSON_quote.
  repeat (progress (rewrite ?append_assoc, ?append_cons, ?append_nil_l)).
  reflexivity.
Qed.

Lemma JSON_read_members_step fuel k v d rest :
  JSON_read_members (S fuel)
    (String dquote
       (JSON_escape_all k
        +:+ String dquote
              (String ":"
                 (String dquote (JSON_escape_all v +:+ String dquote (String d rest))))))
  = if (code d =? 125)%N then
      match rest with
      | EmptyString => Some [(k, v)]
      | _ => None
      end
    else if (code d =? 44)%N then cons (k, v) <$> JSON_read_members fuel rest
    else None.
Proof.
  cbn [JSON_read_members].
  change (code dquote =? 34)%N with true. cbv iota.
  rewrite JSON_read_escape_all.
  change (code ":" =? 58)%N with true. change (code dquote =? 34)%N with true.
  cbn [andb]. cbv iota.
  rewrite JSON_read_escape_all. reflexivity.
Qed.

Lemma JSON_read_members_round obj : forall fuel,
  obj <> [] ->
  (length obj <= fuel)%nat ->
  JSON_read_members fuel (join "," (map member obj) +:+ "}") = Some obj.
Proof.
  induction obj as [| [k v] obj IH]; intros fuel Hne Hlen; [done |].
  destruct fuel as [| fuel]; [simpl in Hlen; lia |].
  destruct obj as [| kv obj].
  - change (join "," (map member [(k, v)])) with (member (k, v)).
    unfold member. cbn [fst snd].
    rewrite member_text, JSON_read_members_step. reflexivity.
  - change (join "," (map member ((k, v) :: kv :: obj)))
      with (member (k, v) +:+ "," +:+ join "," (map member (kv :: obj))).
    unfold member at 1. cbn [fst snd].
    set (J := join "," (map member (kv :: obj))) in *.
    set (M := JSON_quote k +:+ ":" +:+ JSON_quote v).
    rewrite (append_assoc M _ "}"), (append_assoc "," J "}").
    subst M. rewrite member_text.
    change ("," +:+ J +:+ "}") with (String "," (J +:+ "}")).
    rewrite JSON_read_members_step.
    change (code "," =? 125)%N with false. change (code "," =? 44)%N with true.
    cbv iota. rewrite IH; [reflexivity | done | simpl in Hlen |- *; lia].
Qed.

Lemma length_append a b :
  String.length (a +:+ b) = (String.length a + String.length b)%nat.
Proof. induction a as [| c a IH]; [reflexivity |]. simpl. by rewrite IH. Qed.

Lemma member_starts_with_quote kv tail :
  exists c rest, member kv +:+ tail = String dquote (String c rest).
Proof.
  destruct kv as [k v]. unfold member. cbn [fst snd]. rewrite member_text.
  destruct (JSON_escape_all k) as [| c e]; eexists _, _; reflexivity.
Qed.

Lemma members_long_enough obj :
  (length obj <= String.length (join "," (map member obj)))%nat.
Proof.
  induction obj as [| kv obj IH]; [simpl; lia |].
  destruct obj as [| kv' obj].
  - change (join "," (map member [kv])) with (member kv).
    destruct (member_starts_with_quote kv EmptyString) as (c & rest & H).
    assert (Hm : member kv +:+ EmptyString = member kv).
    { generalize (member kv). intros a. induction a as [| x a IHa]; [done |].
      rewrite append_cons. by rewrite IHa. }
    rewrite Hm in H. rewrite H. simpl. lia.
  - change (join "," (map member (kv :: kv' :: obj)))
      with (member kv +:+ "," +:+ join "," (map member (kv' :: obj))).
    rewrite !length_append. simpl in IH |- *. lia.
Qed.

Lemma obj_set_fresh acc k v :
  k ∉ map fst acc -> obj_set acc k v = (acc ++ [(k, v)])%list.
Proof.
  induction acc as [| [k' v'] acc IH]; intros Hk; [reflexivity |].
  simpl in Hk |- *. apply not_elem_of_cons in Hk as [Hne Hk].
  destruct (String.eqb_spec k' k) as [-> | _]; [done |]. by rewrite IH.
Qed.

Lemma spread_distinct obj : forall acc,
  NoDup (map fst (acc ++ obj)%list) -> spread acc obj = (acc ++ obj)%list.
Proof.
  unfold spread. induction obj as [| [k v] obj IH]; intros acc Hnd.
  - simpl. by rewrite app_nil_r.
  - simpl. rewrite obj_set_fresh.
    + rewrite IH; rewrite <- app_assoc; [done |]. exact Hnd.
    + rewrite map_app in Hnd. apply NoDup_app in Hnd as (_ & Hdisj & _).
      intros Hin. apply (Hdisj k Hin). simpl. apply list_elem_of_here.
Qed.

(** Reading back what [JSON_stringify] wrote gives the object again. *)
Lemma JSON_parse_stringify obj :
  distinct_names obj -> JSON_parse (JSON_stringify obj) = Some obj.
Proof.
  intros Hnd. destruct obj as [| kv obj]; [reflexivity |].
  unfold JSON_stringify.
  change (map (fun kv0 : string * string => JSON_quote kv0.1 +:+ ":" +:+ JSON_quote kv0.2)
            (kv :: obj)) with (map member (kv :: obj)).
  set (rest := join "," (map member (kv :: obj)) +:+ "}").
  change ("{" +:+ rest) with (String "{" rest).
  assert (Hshape : exists c r, rest = String dquote (String c r)).
  { subst rest. destruct obj as [| kv' obj].
    - apply member_starts_with_quote.
    - change (join "," (map member (kv :: kv' :: obj)))
        with (member kv +:+ "," +:+ join "," (map member (kv' :: obj))).
      rewrite append_assoc. apply member_starts_with_quote. }
  assert (Hparse : JSON_parse (String "{" rest)
                   = spread [] <$> JSON_read_members (String.length rest) rest).
  { destruct Hshape as (c & r & ->). reflexivity. }
  rewrite Hparse. subst rest.
  rewrite JSON_read_members_round; [| done |].
  - simpl. f_equal. by apply (spread_distinct (kv :: obj) []).
  - rewrite length_append. pose proof (members_long_enough (kv :: obj)). lia.
Qed.

(** [JSON_stringify] loses nothing: two objects of strings with the same
    text are the same object, so the message of an error body, or the URL of
    a success body, is determined by the body. *)
Theorem JSON_stringify_injective obj obj' :
  distinct_names obj ->
  distinct_names obj' ->
  JSON_stringify obj = JSON_stringify obj' ->
  obj = obj'.
Proof.
  intros Hnd Hnd' Heq.
  apply (f_equal JSON_parse) in Heq.
  rewrite !JSON_parse_stringify in Heq by done. by injection Heq.
Qed.

Lemma JSON_stringify_injective_witness :
  [("error", "Unauthorized")] = [("error", "Unauthorized")].
Proof.
  apply (JSON_stringify_injective [("error", "Unauthorized")] [("error", "Unauthorized")]).
  - unfold distinct_names. simpl. apply NoDup_singleton.
  - unfold distinct_names. simpl. apply NoDup_singleton.
  - reflexivity.
Defined.

(** ** The image panel *)

Lemma UPLOAD_ENABLED_true W K :
  UPLOAD_ENABLED W K = true ->
  exists workerUrl key,
    W = Some workerUrl /\ K = Some key /\ truthy W = true /\ truthy K = true.
Proof.
  unfold UPLOAD_ENABLED. intros H. apply andb_true_iff in H as [HW HK].
  destruct W as [workerUrl |]; [| done]. destruct K as [key |]; [| done].
  by exists workerUrl, key.
Qed.

(** Without a selected file, or when the worker URL or the key is missing
    or empty, [handleFileChange] does nothing: no state change and no
    request. *)
Theorem handleFileChange_guard W K file hasInput outcome :
  UPLOAD_ENABLED W K = false \/ file = None ->
  handleFileChange W K file hasInput outcome = [].
Proof.
  unfold handleFileChange, UPLOAD_ENABLED. intros [H | ->]; [| done].
  destruct file; [| done]. destruct W; [| done]. destruct K; [| done].
  apply andb_false_iff in H as [-> | ->]; [done |]. by rewrite orb_true_r.
Qed.

Lemma handleFileChange_guard_witness :
  handleFileChange (Some "https://upload.example") (Some EmptyString)
    (Some (file_of_type "image/png")) true (FetchRejects ThrownOther) = [].
Proof.
  apply (handleFileChange_guard (Some "https://upload.example") (Some EmptyString)).
  left. reflexivity.
Defined.

(** With a file and a configured worker, [handleFileChange] first shows
    the uploading state and posts the file once with the configured key;
    whatever comes back, it does not leave the panel in the uploading state,
    and it clears the file input last when there is one. *)
Theorem handleFileChange_settles W K f hasInput outcome initial :
  UPLOAD_ENABLED W K = true ->
  let effects := handleFileChange W K (Some f) hasInput outcome in
  (exists workerUrl key rest,
     W = Some workerUrl /\ K = Some key
     /\ effects = SetUploadState StatusUploading :: PostFile workerUrl key f :: rest
     /\ forall u k g, ~ In (PostFile u k g) rest)
  /\ uploadState_after initial effects <> StatusUploading
  /\ (hasInput = true -> last effects = Some ClearFileInput).
Proof.
  intros Henabled effects. subst effects.
  destruct (UPLOAD_ENABLED_true W K Henabled) as (workerUrl & key & -> & -> & HW & HK).
  unfold handleFileChange. rewrite HW, HK. cbn [negb orb].
  split; [eexists _, _, _; repeat split |].
  - intros u k g Hin. apply in_app_or in Hin as [Hin | Hin].
    + destruct outcome as [thrown | status [thrown | result]]; simpl in Hin;
        try (intuition discriminate).
      destruct (negb (Response_ok status) || negb (truthy (Result.url result)));
        simpl in Hin; intuition discriminate.
    + destruct hasInput; simpl in Hin; intuition discriminate.
  - split.
    + destruct outcome as [thrown | status [thrown | result]];
        try (destruct hasInput; discriminate).
      destruct (negb (Response_ok status) || negb (truthy (Result.url result)));
        destruct hasInput; discriminate.
    + intros ->.
      destruct outcome as [thrown | status [thrown | result]]; try reflexivity.
      destruct (negb (Response_ok status) || negb (truthy (Result.url result)));
        reflexivity.
Qed.

Lemma handleFileChange_settles_witness :
  uploadState_after StatusIdle
    (handleFileChange (Some "https://upload.example") (Some "s3cret")
       (Some (file_of_type "image/png")) true (FetchRejects ThrownOther))
  <> StatusUploading.
Proof.
  apply (handleFileChange_settles (Some "https://upload.example") (Some "s3cret")
           (file_of_type "image/png") true (FetchRejects ThrownOther) StatusIdle).
  reflexivity.
Defined.

Lemma Response_ok_iff status : Response_ok status = true <-> 200 <= status <= 299.
Proof. unfold Response_ok. rewrite andb_true_iff, !Z.leb_le. reflexivity. Qed.

Lemma delivers_check status result :
  negb (Response_ok status) || negb (truthy (Result.url result)) = false
  <-> exists u, delivers (FetchResolves status (JsonResolves result)) u.
Proof.
  rewrite orb_false_iff, !negb_false_iff, Response_ok_iff. unfold delivers. split.
  - intros [Hok Hurl]. destruct (Result.url result) as [u |] eqn:Hu; [| done].
    simpl in Hurl. apply negb_true_iff, String.eqb_neq in Hurl.
    exists u, status, result. by rewrite Hu.
  - intros (u & st & res & Heq & Hok & Hu & Hne). simplify_eq. split; [done |].
    rewrite Hu. simpl. apply negb_true_iff. by apply String.eqb_neq.
Qed.

(** The panel takes a URL exactly when the worker delivered one: the run
    ends in the idle state if and only if the call resolved with a status
    from 200 to 299 and a non-empty [url], and [updateData] is called with
    [u] if and only if that [url] is [u]. In every other case the source URL
    is left alone and the run ends in the error state. *)
Theorem panel_takes_url_iff_delivered W K f hasInput outcome initial :
  UPLOAD_ENABLED W K = true ->
  let effects := handleFileChange W K (Some f) hasInput outcome in
  (uploadState_after initial effects = StatusIdle <-> exists u, delivers outcome u)
  /\ (forall u, In (UpdateSourceUrl u) effects <-> delivers outcome u)
  /\ ((forall u, ~ delivers outcome u) ->
      exists message, uploadState_after initial effects = StatusError message).
Proof.
  intros Henabled effects. subst effects.
  destruct (UPLOAD_ENABLED_true W K Henabled) as (workerUrl & key & -> & -> & HW & HK).
  unfold handleFileChange. rewrite HW, HK. cbn [negb orb].
  destruct outcome as [thrown | status [thrown | result]].
  - repeat split.
    + destruct hasInput; discriminate.
    + intros (u & st & res & ? & _). discriminate.
    + destruct hasInput; simpl; intuition discriminate.
    + intros (st & res & ? & _). discriminate.
    + intros _. destruct hasInput; by eexists.
  - repeat split.
    + destruct hasInput; discriminate.
    + intros (u & st & res & ? & _). discriminate.
    + destruct hasInput; simpl; intuition discriminate.
    + intros (st & res & ? & _). discriminate.
    + intros _. destruct hasInput; by eexists.
  - destruct (negb (Response_ok status) || negb (truthy (Result.url result))) eqn:Hcheck.
    + assert (Hnone : forall u, ~ delivers (FetchResolves status (JsonResolves result)) u).
      { intros u Hu. assert (Hex : exists u, delivers (FetchResolves status (JsonResolves result)) u)
          by (by exists u).
        apply delivers_check in Hex. congruence. }
      repeat split.
      * destruct hasInput; discriminate.
      * intros [u Hu]. by destruct (Hnone u).
      * destruct hasInput; simpl; intuition discriminate.
      * intros Hu. by destruct (Hnone u).
      * intros _. destruct hasInput; by eexists.
    + pose proof (proj1 (delivers_check status result) Hcheck) as [u Hu].
      assert (Hurl : Result.url result = Some u).
      { destruct Hu as (st & res & Heq & _ & Hurl & _). by simplify_eq. }
      rewrite Hurl. cbn [default]. repeat split.
      * intros _. by exists u.
      * intros _. by destruct hasInput.
      * intros Hin. simpl in Hin.
        destruct Hin as [? | [? | [Heq | Hin]]]; try discriminate.
        { injection Heq as <-. exact Hu. }
        destruct hasInput; simpl in Hin; intuition discriminate.
      * intros (st & res & Heq & _ & Hurl' & _). simplify_eq.
        destruct hasInput; simpl; auto.
      * intros Hnone. by destruct (Hnone u).
Qed.

Lemma panel_takes_url_iff_delivered_witness :
  In (UpdateSourceUrl "https://pub-abc123.r2.dev/uploads/1-u.png")
    (handleFileChange (Some "https://upload.example") (Some "s3cret")
       (Some (file_of_type "image/png")) true
       (FetchResolves 200
          (JsonResolves
             {| Result.url := Some "https://pub-abc123.r2.dev/uploads/1-u.png";
                Result.error := None |}))).
Proof.
  apply (panel_takes_url_iff_delivered (Some "https://upload.example") (Some "s3cret")
           (file_of_type "image/png") true _ StatusIdle eq_refl).
  eexists _, _. repeat split; [lia | lia | discriminate].
Defined.

(** ** The text typed in the URL fields *)

Lemma all_whitespace_cons c s :
  all_whitespace (String c s) <-> is_js_whitespace c = true /\ all_whitespace s.
Proof.
  unfold all_whitespace. cbn [list_ascii_of_string].
  exact (Forall_cons (fun c0 => is_js_whitespace c0 = true) c (list_ascii_of_string s)).
Qed.

Lemma trimEnd_blank_iff s : trimEnd s = EmptyString <-> all_whitespace s.
Proof.
  induction s as [| c s IH]; [split; [intros _; constructor | done] |].
  rewrite all_whitespace_cons. simpl.
  destruct (trimEnd s) as [| d rest].
  - destruct (is_js_whitespace c).
    + split; [intros _; split; [done | by apply IH] | done].
    + split; [done | intros [? _]; done].
  - split; [done |]. intros [_ H]. by apply IH in H.
Qed.

Lemma trimStart_blank_iff s : all_whitespace (trimStart s) <-> all_whitespace s.
Proof.
  induction s as [| c s IH]; [done |].
  simpl. destruct (is_js_whitespace c) eqn:Hc; [| done].
  rewrite all_whitespace_cons, IH. tauto.
Qed.

Lemma trim_blank_iff s : trim s = EmptyString <-> all_whitespace s.
Proof. unfold trim. by rewrite trimEnd_blank_iff, trimStart_blank_iff. Qed.

Lemma trimEnd_idempotent s : trimEnd (trimEnd s) = trimEnd s.
Proof.
  induction s as [| c s IH]; [done |].
  simpl. destruct (trimEnd s) as [| d rest] eqn:Hs.
  - destruct (is_js_whitespace c) eqn:Hc; [done |]. simpl. by rewrite Hc.
  - change (trimEnd (String c (String d rest))) with
      (match trimEnd (String d rest) with
       | EmptyString => if is_js_whitespace c then EmptyString else String c EmptyString
       | String e rest' => String c (String e rest')
       end).
    by rewrite IH.
Qed.

Lemma trimStart_head s :
  trimStart s = EmptyString
  \/ exists c rest, trimStart s = String c rest /\ is_js_whitespace c = false.
Proof.
  induction s as [| c s IH]; [by left |].
  simpl. destruct (is_js_whitespace c) eqn:Hc; [done |]. right. by exists c, s.
Qed.

Lemma trimEnd_head c rest :
  is_js_whitespace c = false -> exists rest', trimEnd (String c rest) = String c rest'.
Proof.
  intros Hc. simpl. destruct (trimEnd rest); [rewrite Hc |]; by eexists.
Qed.

Lemma trim_idempotent s : trim (trim s) = trim s.
Proof.
  unfold trim. destruct (trimStart_head s) as [-> | (c & rest & -> & Hc)]; [done |].
  destruct (trimEnd_head c rest Hc) as [rest' Hend].
  rewrite Hend. cbn [trimStart]. rewrite Hc. rewrite <- Hend. apply trimEnd_idempotent.
Qed.

(** The URL fields never store an empty or padded text: text made of
    white space only (the empty text included) is stored as null, and any
    other text is stored trimmed, which is a non-empty text that trimming
    leaves unchanged. *)
Theorem typed_url_is_null_or_trimmed v :
  (typed_url v = None <-> all_whitespace v)
  /\ (forall u, typed_url v = Some u ->
        u = trim v /\ u <> EmptyString /\ trim u = u).
Proof.
  unfold typed_url. rewrite <- trim_blank_iff.
  destruct (trim v) as [| c rest] eqn:Htrim; simpl.
  - split; [done | intros u Hu; done].
  - split; [split; done |]. intros u Hu. injection Hu as <-.
    repeat split; [done |]. rewrite <- Htrim. apply trim_idempotent.
Qed.

(** ** The panel and the worker together *)

Lemma response_json_error r message :
  Response.body r = Some (JSON_stringify [("error", message)]) ->
  response_json r = Some {| Result.url := None; Result.error := Some message |}.
Proof.
  intros Hbody. unfold response_json. rewrite Hbody.
  cbn [mbind option_bind].
  rewrite JSON_parse_stringify; [reflexivity |].
  unfold distinct_names. simpl. apply NoDup_singleton.
Qed.

Lemma response_json_url r u :
  Response.body r = Some (JSON_stringify [("url", u)]) ->
  response_json r = Some {| Result.url := Some u; Result.error := None |}.
Proof.
  intros Hbody. unfold response_json. rewrite Hbody.
  cbn [mbind option_bind].
  rewrite JSON_parse_stringify; [reflexivity |].
  unfold distinct_names. simpl. apply NoDup_singleton.
Qed.

(** Whatever error the worker answers with, the panel shows its message:
    for every response of the worker other than 200 and 204, reading the
    body gives an object whose [error] is the worker's message, and the run
    of [handleFileChange] on it ends in the error state with that message
    and without touching the source URL. *)
Theorem panel_shows_worker_error env host request m W K f hasInput initial :
  UPLOAD_ENABLED W K = true ->
  let r := (fetch env host request m).1 in
  Response.status r <> 200 ->
  Response.status r <> 204 ->
  exists message result,
    Response.body r = Some (JSON_stringify [("error", message)])
    /\ response_json r = Some result
    /\ let effects :=
         handleFileChange W K (Some f) hasInput
           (FetchResolves (Response.status r) (JsonResolves result)) in
       uploadState_after initial effects = StatusError message
       /\ forall u, ~ In (UpdateSourceUrl u) effects.
Proof.
  intros Henabled r H200 H204.
  destruct (fetch_response_shape env host request m) as [_ Hkind].
  fold r in Hkind.
  destruct Hkind as [[Hs _] | [[Hs _] | [_ [message Hbody]]]]; [done | done |].
  exists message, {| Result.url := None; Result.error := Some message |}.
  split; [done |]. split; [by apply response_json_error |].
  destruct (UPLOAD_ENABLED_true W K Henabled) as (workerUrl & key & -> & -> & HW & HK).
  unfold handleFileChange. rewrite HW, HK. cbn [negb orb Result.url Result.error truthy].
  rewrite orb_true_r. cbn [default].
  split; [by destruct hasInput |].
  intros u Hin. simpl in Hin. destruct hasInput; simpl in Hin; intuition discriminate.
Qed.

Lemma panel_shows_worker_error_witness :
  exists message result,
    Response.body (fetch env_open host0 keyless_post ∅).1
    = Some (JSON_stringify [("error", message)])
    /\ response_json (fetch env_open host0 keyless_post ∅).1 = Some result
    /\ let effects :=
         handleFileChange (Some "https://upload.example") (Some "wrong")
           (Some (file_of_type "image/png")) true
           (FetchResolves (Response.status (fetch env_open host0 keyless_post ∅).1)
              (JsonResolves result)) in
       uploadState_after StatusIdle effects = StatusError message
       /\ forall u, ~ In (UpdateSourceUrl u) effects.
Proof.
  apply (panel_shows_worker_error env_open host0 keyless_post ∅
           (Some "https://upload.example") (Some "wrong")
           (file_of_type "image/png") true StatusIdle eq_refl).
  - vm_compute. discriminate.
  - vm_compute. discriminate.
Defined.

Lemma append_nonempty a c b : a +:+ String c b <> EmptyString.
Proof. destruct a; discriminate. Qed.

(** When the worker answers 200, the panel stores exactly the URL of the
    body: reading the body gives an object whose [url] is the worker's URL,
    and the run of [handleFileChange] on it calls [updateData] with that URL
    and ends in the idle state. *)
Theorem panel_stores_worker_url env host request m W K f hasInput initial :
  UPLOAD_ENABLED W K = true ->
  let r := (fetch env host request m).1 in
  Response.status r = 200 ->
  exists u result,
    Response.body r = Some (JSON_stringify [("url", u)])
    /\ response_json r = Some result
    /\ let effects :=
         handleFileChange W K (Some f) hasInput
           (FetchResolves (Response.status r) (JsonResolves result)) in
       uploadState_after initial effects = StatusIdle
       /\ forall u', In (UpdateSourceUrl u') effects <-> u' = u.
Proof.
  intros Henabled r H200.
  pose proof (proj1 (status_200_iff env host request m) H200)
    as (Hreach & Hfree & file & Hfile & Hext & Hput).
  unfold limited in Hfree.
  pose proof (fetch_stored env host request m Hreach Hfree file Hfile Hext Hput) as Hfetch.
  set (u := strip_trailing_slash (R2_PUBLIC_URL env) +:+ "/"
            +:+ storage_key host (get_property ALLOWED_TYPES (File.type file))) in *.
  assert (Hbody : Response.body r = Some (JSON_stringify [("url", u)])).
  { subst r. by rewrite Hfetch. }
  exists u, {| Result.url := Some u; Result.error := None |}.
  split; [done |]. split; [by apply response_json_url |].
  destruct (UPLOAD_ENABLED_true W K Henabled) as (workerUrl & key & -> & -> & HW & HK).
  unfold handleFileChange. rewrite HW, HK, H200.
  cbn [negb orb Result.url Result.error].
  assert (Htruthy : truthy (Some u) = true).
  { simpl. apply negb_true_iff, String.eqb_neq. subst u. apply append_nonempty. }
  rewrite Htruthy.
  change (negb (Response_ok 200) || negb true) with false. cbn [default].
  split; [by destruct hasInput |].
  intros u'. simpl. split.
  - intros [? | [? | [Heq | Hin]]]; try discriminate; [by injection Heq |].
    destruct hasInput; simpl in Hin; intuition discriminate.
  - intros ->. auto.
Qed.

Lemma panel_stores_worker_url_witness :
  exists u result,
    Response.body (fetch env_open host0 (upload_of "image/png") ∅).1
    = Some (JSON_stringify [("url", u)])
    /\ response_json (fetch env_open host0 (upload_of "image/png") ∅).1 = Some result
    /\ let effects :=
         handleFileChange (Some "https://upload.example") (Some "s3cret")
           (Some (file_of_type "image/png")) true
           (FetchResolves
              (Response.status (fetch env_open host0 (upload_of "image/png") ∅).1)
              (JsonResolves result)) in
       uploadState_after StatusIdle effects = StatusIdle
       /\ forall u', In (UpdateSourceUrl u') effects <-> u' = u.
Proof.
  apply (panel_stores_worker_url env_open host0 (upload_of "image/png") ∅
           (Some "https://upload.example") (Some "s3cret")
           (file_of_type "image/png") true StatusIdle eq_refl).
  vm_compute. reflexivity.
Defined.

(** ** Sample runs of the type check *)

Lemma unlisted_type_is_400_witness :
  Response.status (fetch env_open host0 (upload_of "text/html") ∅).1 = 400
  /\ Response.body (fetch env_open host0 (upload_of "text/html") ∅).1
     = Some (JSON_stringify [("error", unsupported_type_message "text/html")]).
Proof.
  apply (unlisted_type_is_400 env_open host0 (upload_of "text/html") ∅
           (file_of_type "text/html")).
  - reflexivity.
  - reflexivity.
  - reflexivity.
  - unfold spec_allowed_type. simpl. intuition discriminate.
  - reflexivity.
Defined.

Lemma stored_upload_url_witness :
  Response.status (fetch env_open host0 (upload_of "image/webp") ∅).1 = 200
  /\ Response.body (fetch env_open host0 (upload_of "image/webp") ∅).1
     = Some (JSON_stringify
               [("url",
                 strip_trailing_slash "https://pub-abc123.r2.dev/" +:+ "/uploads/"
                 +:+ Number_toString 1700000000000 +:+ "-"
                 +:+ "123e4567-e89b-42d3-a456-426614174000" +:+ "." +:+ "webp")]).
Proof.
  apply (stored_upload_url env_open host0 (upload_of "image/webp") ∅
           (file_of_type "image/webp")); reflexivity.
Defined.
